(** * The colour-constant generator [assets/scripts/colors.py]

    The script loads a two-level JSON table of OKLCH triples, converts every
    entry to linear sRGB through the [coloraide] library and prints one Rust
    constant per entry followed by an aggregate [ALL] constant.

    Layers of the development:
    - [Py]: the Python values that [json.load] returns and the builtins the
      script applies to them (subscript, iteration, true division, [str],
      what stdout can encode);
    - [Gen]: the script itself, statement by statement, in a state-and-
      exception monad whose state is the texts printed so far and the
      [color_names] accumulator;
    - [Table]: the vocabulary of the specification (pairs of a table, the
      declaration of a pair, output lines, tables the run accepts,
      rearranged tables);
    - [Demo]: a small runtime and library to compute with;
    - [Facts]: the properties. *)

From Stdlib Require Import List String Ascii ZArith QArith Bool Lia DecimalString.
From Stdlib Require Import Permutation.
Import ListNotations.

Set Warnings "-register-all".

Local Open Scope string_scope.
Local Open Scope list_scope.
Local Open Scope Z_scope.

(** ** Exceptions and results *)

Inductive exn : Type :=
| OSError            (* [open] on a missing or unreadable file *)
| JSONDecodeError    (* [json.load] on text that is not JSON *)
| AttributeError
| TypeError
| KeyError
| IndexError
| OverflowError
| ZeroDivisionError
| UnicodeEncodeError (* [print] of a text that stdout cannot encode *)
| LibraryError.      (* anything raised inside coloraide *)

Inductive result (A : Type) : Type :=
| Ok (a : A)
| Raise (e : exn).
Arguments Ok {A} a.
Arguments Raise {A} e.

Module Py.

(** ** Values produced by [json.load]

    A JSON object becomes a [dict], which keeps its keys in insertion order:
    an association list.  [F] is the type of Python floats. *)

Inductive pyval (F : Type) : Type :=
| PNone
| PBool (b : bool)
| PInt (z : Z)
| PFloat (f : F)
| PStr (s : string)
| PList (l : list (pyval F))
| PDict (d : list (string * pyval F)).
Arguments PNone {F}.
Arguments PBool {F} b.
Arguments PInt {F} z.
Arguments PFloat {F} f.
Arguments PStr {F} s.
Arguments PList {F} l.
Arguments PDict {F} d.

(** Whether a codec can encode a text is decided character by character.
    Every codec that Python offers for stdout encodes the ASCII characters;
    for any other character it depends on the codec (UTF-8 refuses a lone
    surrogate, which [json.load] does produce from an escape such as
    ["\ud800"]; ASCII refuses everything else). *)

Definition is_ascii (c : ascii) : bool :=
  match c with Ascii _ _ _ _ _ _ _ b7 => negb b7 end.

Definition encodes_with (codec : ascii -> bool) (s : string) : bool :=
  forallb (fun c => is_ascii c || codec c) (list_ascii_of_string s).

(** The part of the interpreter that depends on IEEE arithmetic, on the
    Unicode tables or on the environment is an interface: true division,
    [repr] of a float, [str.upper], [repr] of a string and the codec of
    stdout.  [repr] of a string keeps the printable characters of the string
    and writes the other ones as ASCII escapes, so it brings in no character
    that the codec refuses. *)

Record Runtime (F : Type) : Type := {
  int_truediv : Z -> Z -> result F;      (* int / int *)
  float_truediv : F -> Z -> result F;    (* float / int *)
  float_repr : F -> string;              (* repr(float), also str and format *)
  str_upper : string -> string;          (* str.upper() *)
  str_repr : string -> string;           (* repr(str) *)
  stdout_encodes : ascii -> bool;        (* the codec of sys.stdout, beyond ASCII *)
  str_repr_encodes :
    forall s, encodes_with stdout_encodes s = true ->
              encodes_with stdout_encodes (str_repr s) = true
}.
Arguments int_truediv {F} _ _ _.
Arguments float_truediv {F} _ _ _.
Arguments float_repr {F} _ _.
Arguments str_upper {F} _ _.
Arguments str_repr {F} _ _.
Arguments stdout_encodes {F} _ _.
Arguments str_repr_encodes {F} _ _ _.

(** The colour library, as far as the script touches it.  [color] is the
    state of a [Color] object. *)

Record ColorLib (F : Type) : Type := {
  color : Type;
  Color : string -> pyval F -> result color;   (* Color(space, coords) *)
  convert : color -> string -> result color;   (* .convert(space) *)
  fit : color -> string -> result color;       (* .fit(space) *)
  coord : color -> Z -> result F               (* rgb[i] *)
}.
Arguments color {F} _.
Arguments Color {F} _ _ _.
Arguments convert {F} _ _ _.
Arguments fit {F} _ _ _.
Arguments coord {F} _ _ _.

Section Builtins.

Context {F : Type} (rt : Runtime F).

Definition lookup {A : Type} (k : string) (d : list (string * A)) : option A :=
  match find (fun kv => String.eqb k (fst kv)) d with
  | Some kv => Some (snd kv)
  | None => None
  end.

(** [d.keys()]: only a dict has the method. *)
Definition py_keys (v : pyval F) : result (list string) :=
  match v with
  | PDict d => Ok (map fst d)
  | _ => Raise AttributeError
  end.

(** [iter(v)], all elements at once: the script never mutates [v]. *)
Definition py_iter (v : pyval F) : result (list (pyval F)) :=
  match v with
  | PDict d => Ok (map (fun kv => PStr (fst kv)) d)
  | PList l => Ok l
  | PStr s => Ok (map (fun c => PStr (String c EmptyString)) (list_ascii_of_string s))
  | _ => Raise TypeError
  end.

(** Sequence index with Python's negative positions. *)
Definition seq_index {A : Type} (l : list A) (i : Z) : option A :=
  let n := Z.of_nat (List.length l) in
  let j := if i <? 0 then i + n else i in
  if (0 <=? j) && (j <? n) then nth_error l (Z.to_nat j) else None.

(** What [__index__] accepts: [int] and its subclass [bool]. *)
Definition as_index (v : pyval F) : option Z :=
  match v with
  | PInt z => Some z
  | PBool b => Some (Z.b2z b)
  | _ => None
  end.

(** [c[k]] *)
Definition getitem (c k : pyval F) : result (pyval F) :=
  match c with
  | PDict d =>
      match k with
      | PStr s => match lookup s d with Some v => Ok v | None => Raise KeyError end
      | PList _ | PDict _ => Raise TypeError      (* unhashable *)
      | _ => Raise KeyError
      end
  | PList l =>
      match as_index k with
      | Some i => match seq_index l i with Some v => Ok v | None => Raise IndexError end
      | None => Raise TypeError
      end
  | PStr s =>
      match as_index k with
      | Some i =>
          match seq_index (list_ascii_of_string s) i with
          | Some ch => Ok (PStr (String ch EmptyString))
          | None => Raise IndexError
          end
      | None => Raise TypeError
      end
  | _ => Raise TypeError                          (* not subscriptable *)
  end.

(** [x / n] for an [int] literal [n] *)
Definition truediv (x : pyval F) (n : Z) : result F :=
  match x with
  | PInt z => int_truediv rt z n
  | PBool b => int_truediv rt (Z.b2z b) n
  | PFloat f => float_truediv rt f n
  | _ => Raise TypeError
  end.

Definition join (sep : string) (l : list string) : string := String.concat sep l.

Definition int_str (z : Z) : string := NilZero.string_of_int (Z.to_int z).

(** [repr(v)] *)
Fixpoint py_repr (v : pyval F) : string :=
  match v with
  | PNone => "None"
  | PBool true => "True"
  | PBool false => "False"
  | PInt z => int_str z
  | PFloat f => float_repr rt f
  | PStr s => str_repr rt s
  | PList l => "[" ++ join ", " (map py_repr l) ++ "]"
  | PDict d =>
      "{" ++ join ", " (map (fun kv => str_repr rt (fst kv) ++ ": " ++ py_repr (snd kv)) d) ++ "}"
  end%string.

(** [str(v)], which is also [format(v, "")]: what an f-string field prints. *)
Definition py_str (v : pyval F) : string :=
  match v with
  | PStr s => s
  | _ => py_repr v
  end.

(** Whether stdout can encode [s]. *)
Definition encodes (s : string) : bool := encodes_with (stdout_encodes rt) s.

End Builtins.

End Py.

(** ** The script *)

Module Gen.
Import Py.

(** What lines 6 and 7 obtain: [open] raises ([Missing]), [json.load]
    raises ([Malformed]), or [json.load] returns a value. *)
Inductive file_state (F : Type) : Type :=
| Missing
| Malformed
| Json (data : pyval F).
Arguments Missing {F}.
Arguments Malformed {F}.
Arguments Json {F} data.

(** The texts printed so far (one per [print] that went through), the
    [color_names] list, and a log of the coordinate lists at the moment
    line 14 is reached. *)
Record state (F : Type) : Type := {
  stdout : list string;
  color_names : list string;
  lib_calls : list (pyval F)
}.
Arguments stdout {F} _.
Arguments color_names {F} _.
Arguments lib_calls {F} _.

Definition M (F A : Type) : Type := state F -> state F * result A.

Definition ret {F A} (a : A) : M F A := fun st => (st, Ok a).

Definition bind {F A B} (m : M F A) (k : A -> M F B) : M F B :=
  fun st =>
    match m st with
    | (st', Ok a) => k a st'
    | (st', Raise e) => (st', Raise e)
    end.

Notation "x <- m ;; k" := (bind m (fun x => k))
  (at level 100, m at next level, right associativity).
Notation "m ;; k" := (bind m (fun _ => k))
  (at level 100, right associativity).

Definition lift {F A} (r : result A) : M F A := fun st => (st, r).

(** [print(text)]: the text is encoded as a whole before anything is
    written, and [UnicodeEncodeError] leaves stdout as it was. *)
Definition print {F} (rt : Runtime F) (text : string) : M F unit :=
  fun st =>
    if encodes rt text
    then ({| stdout := stdout st ++ [text];
             color_names := color_names st;
             lib_calls := lib_calls st |}, Ok tt)
    else (st, Raise UnicodeEncodeError).

(** What the prints have written: each text, then a line feed. *)
Fixpoint written (texts : list string) : string :=
  match texts with
  | [] => EmptyString
  | t :: ts => t ++ String "010" (written ts)
  end.

Definition append_name {F} (n : string) : M F unit :=
  fun st => ({| stdout := stdout st;
                color_names := color_names st ++ [n];
                lib_calls := lib_calls st |}, Ok tt).

Definition log_call {F} (coords : pyval F) : M F unit :=
  fun st => ({| stdout := stdout st;
                color_names := color_names st;
                lib_calls := lib_calls st ++ [coords] |}, Ok tt).

Definition get_names {F} : M F (list string) := fun st => (st, Ok (color_names st)).

(** The state after more lines, names and library calls. *)
Definition emit {F} (st : state F) (lines names : list string) (calls : list (pyval F))
  : state F :=
  {| stdout := stdout st ++ lines;
     color_names := color_names st ++ names;
     lib_calls := lib_calls st ++ calls |}.

Fixpoint for_each {F A} (xs : list A) (body : A -> M F unit) : M F unit :=
  match xs with
  | [] => ret tt
  | x :: xs' => body x ;; for_each xs' body
  end.

Section Script.

Context {F : Type} (rt : Runtime F) (lib : ColorLib F).

(** Line 13: [[oklch[0] / 100, oklch[1], oklch[2]]], evaluated left to
    right. *)
Definition oklch_normalized (oklch : pyval F) : result (pyval F) :=
  match getitem oklch (PInt 0) with
  | Raise e => Raise e
  | Ok x0 =>
      match truediv rt x0 100 with
      | Raise e => Raise e
      | Ok l =>
          match getitem oklch (PInt 1) with
          | Raise e => Raise e
          | Ok c =>
              match getitem oklch (PInt 2) with
              | Raise e => Raise e
              | Ok h => Ok (PList [PFloat l; c; h])
              end
          end
      end
  end.

(** Lines 14 to 18: build the colour, convert, fit, read three coordinates. *)
Definition to_rgb (coords : pyval F) : result (F * F * F) :=
  match Color lib "oklch" coords with
  | Raise e => Raise e
  | Ok color =>
      match convert lib color "srgb-linear" with
      | Raise e => Raise e
      | Ok converted =>
          match fit lib converted "srgb-linear" with
          | Raise e => Raise e
          | Ok rgb =>
              match coord lib rgb 0 with
              | Raise e => Raise e
              | Ok r =>
                  match coord lib rgb 1 with
                  | Raise e => Raise e
                  | Ok g =>
                      match coord lib rgb 2 with
                      | Raise e => Raise e
                      | Ok b => Ok (r, g, b)
                      end
                  end
              end
          end
      end
  end.

(** Line 10 *)
Definition const_name (color_name : string) (brightness : pyval F) : string :=
  str_upper rt (color_name ++ "_" ++ py_str rt brightness).

(** Line 20 *)
Definition decl_line (name : string) (rgb : F * F * F) : string :=
  let '(r, g, b) := rgb in
  "pub const " ++ name ++ ": Self = Self::new("
    ++ float_repr rt r ++ ", " ++ float_repr rt g ++ ", " ++ float_repr rt b ++ ");".

(** Line 22 *)
Definition all_line (names : list string) : string :=
  "pub const ALL: [Self; " ++ int_str (Z.of_nat (List.length names)) ++ "] = "
    ++ py_str rt (PList (map PStr names)) ++ ";".

(** Lines 10 to 20: the body of the inner loop. *)
Definition body (data : pyval F) (color_name : string) (brightness : pyval F)
  : M F unit :=
  let name := const_name color_name brightness in
  append_name ("Self::" ++ name) ;;
  family <- lift (getitem data (PStr color_name)) ;;
  oklch <- lift (getitem family brightness) ;;
  coords <- lift (oklch_normalized oklch) ;;
  log_call coords ;;
  rgb <- lift (to_rgb coords) ;;
  print rt (decl_line name rgb).

(** Lines 9 to 20: the inner loop, for one key of the outer loop. *)
Definition family_loop (data : pyval F) (color_name : string) : M F unit :=
  family <- lift (getitem data (PStr color_name)) ;;
  items <- lift (py_iter family) ;;
  for_each items (fun brightness => body data color_name brightness).

(** Lines 6 and 7 *)
Definition load (f : file_state F) : result (pyval F) :=
  match f with
  | Missing => Raise OSError
  | Malformed => Raise JSONDecodeError
  | Json data => Ok data
  end.

(** Lines 6 to 22.  The final [print] is outside the [with] block and is
    reached only when the block raised nothing. *)
Definition script (f : file_state F) : M F unit :=
  data <- lift (load f) ;;
  keys <- lift (py_keys data) ;;
  for_each keys (family_loop data) ;;
  names <- get_names ;;
  print rt (all_line names).

(** Line 4 *)
Definition init : state F := {| stdout := []; color_names := []; lib_calls := [] |}.

Definition run (f : file_state F) : state F * result unit := script f init.

Definition output (f : file_state F) : list string := stdout (fst (run f)).

Definition completes (f : file_state F) : Prop := snd (run f) = Ok tt.

Definition fails (f : file_state F) : Prop := exists e, snd (run f) = Raise e.

End Script.

End Gen.

(** ** The vocabulary of the specification *)

Module Table.
Import Py Gen.

Section Vocabulary.

Context {F : Type} (rt : Runtime F) (lib : ColorLib F).

(** A (family, brightness) pair together with its entry. *)
Definition color_pair : Type := (string * string * pyval F)%type.

Definition family (p : color_pair) : string := fst (fst p).
Definition brightness (p : color_pair) : string := snd (fst p).
Definition entry (p : color_pair) : pyval F := snd p.

Definition family_pairs (fam : string * pyval F) : list color_pair :=
  match snd fam with
  | PDict e => map (fun bv => (fst fam, fst bv, snd bv)) e
  | _ => []
  end.

(** The pairs of a table, families in declaration order and, inside a
    family, brightness keys in declaration order. *)
Definition pairs (data : pyval F) : list color_pair :=
  match data with
  | PDict d => flat_map family_pairs d
  | _ => []
  end.

Fixpoint distinct (keys : list string) : bool :=
  match keys with
  | [] => true
  | k :: ks => negb (existsb (String.eqb k) ks) && distinct ks
  end.

(** A [dict] holds a key once: true of whatever [json.load] returns. *)
Definition keys_distinct (data : pyval F) : bool :=
  match data with
  | PDict d =>
      distinct (map fst d)
      && forallb (fun fam => match snd fam with
                             | PDict e => distinct (map fst e)
                             | _ => true
                             end) d
  | _ => true
  end.

Definition inner_distinct (fam : string * pyval F) : Prop :=
  match snd fam with
  | PDict e => distinct (map fst e) = true
  | _ => True
  end.

(** [upper(F + "_" + B)] *)
Definition identifier (p : color_pair) : string :=
  str_upper rt (family p ++ "_" ++ brightness p).

(** NormalizedOklch, then LinearRGB, of an entry. *)
Definition convert_entry (v : pyval F) : result (pyval F * (F * F * F)) :=
  match oklch_normalized rt v with
  | Raise e => Raise e
  | Ok coords =>
      match to_rgb lib coords with
      | Raise e => Raise e
      | Ok rgb => Ok (coords, rgb)
      end
  end.

Definition entry_ok (v : pyval F) : bool :=
  match convert_entry v with Ok _ => true | Raise _ => false end.


(** [call] is the normalized triple [[L/100, C, H]] of the entry of [p]. *)
Definition is_normalized (p : color_pair) (call : pyval F) : Prop :=
  exists L C H rest q,
    entry p = PList (L :: C :: H :: rest) /\
    truediv rt L 100 = Ok q /\
    call = PList [PFloat q; C; H].

(** The loop body once both subscripts of line 12 have found the entry. *)
Definition entry_step (p : color_pair) : M F unit :=
  append_name ("Self::" ++ identifier p) ;;
  coords <- lift (oklch_normalized rt (entry p)) ;;
  log_call coords ;;
  rgb <- lift (to_rgb lib coords) ;;
  print rt (decl_line rt (identifier p) rgb).

(** Line, name and library call of a pair whose entry converts. *)
Definition pair_line (p : color_pair) : string :=
  match convert_entry (entry p) with
  | Ok (_, rgb) => decl_line rt (identifier p) rgb
  | Raise _ => EmptyString
  end.

Definition pair_name (p : color_pair) : string := "Self::" ++ identifier p.

Definition pair_call (p : color_pair) : pyval F :=
  match convert_entry (entry p) with
  | Ok (coords, _) => coords
  | Raise _ => PNone
  end.

(** A pair goes through when its entry converts and stdout can encode
    its declaration. *)
Definition pair_ok (p : color_pair) : bool :=
  entry_ok (entry p) && encodes rt (pair_line p).

(** The state in which an accepted table leaves the run. *)
Definition final_state (data : pyval F) : state F :=
  {| stdout := map pair_line (pairs data) ++ [all_line rt (map pair_name (pairs data))];
     color_names := map pair_name (pairs data);
     lib_calls := map pair_call (pairs data) |}.

(** The tables on which the run raises nothing: an object whose families
    are objects of pairs that go through; an empty array or an empty string
    in the place of a family is iterated zero times. *)
Definition family_ok (fam : string * pyval F) : bool :=
  match snd fam with
  | PDict _ => forallb pair_ok (family_pairs fam)
  | PList [] => true
  | PStr EmptyString => true
  | _ => false
  end.

Definition accepted (data : pyval F) : bool :=
  match data with
  | PDict d => forallb family_ok d
  | _ => false
  end.

(** An object of objects. *)
Definition table_shaped (data : pyval F) : bool :=
  match data with
  | PDict d => forallb (fun fam => match snd fam with PDict _ => true | _ => false end) d
  | _ => false
  end.

(** The failure condition as the specification words it. *)
Definition numeric (v : pyval F) : bool :=
  match v with PInt _ | PFloat _ => true | _ => false end.

Definition numeric_triple (v : pyval F) : bool :=
  match v with
  | PList [a; b; c] => numeric a && numeric b && numeric c
  | _ => false
  end.

(** A ColorTable as the specification describes it: an object of objects
    of three-number arrays. *)
Definition spec_valid (data : pyval F) : bool :=
  table_shaped data && forallb (fun p => numeric_triple (entry p)) (pairs data).

Definition spec_failure (f : file_state F) : Prop :=
  f = Missing \/ f = Malformed \/
  exists data p, f = Json data /\ In p (pairs data) /\ numeric_triple (entry p) = false.

(** The aggregate line as the specification words it: the identifiers
    bare, each after [Self::], separated by a comma and a space. *)
Definition spec_all_line (identifiers : list string) : string :=
  "pub const ALL: [Self; " ++ int_str (Z.of_nat (List.length identifiers)) ++ "] = ["
    ++ join ", " (map (fun id : string => ("Self::" ++ id)%string) identifiers) ++ "];".

(** The texts of the per-colour prints: everything printed before the
    aggregate print. *)
Definition decl_texts (data : pyval F) : list string :=
  removelast (output rt lib (Json data)).

(** The lines of a written text: what stands between two line feeds. *)
Fixpoint lines_from (cur text : string) : list string :=
  match text with
  | EmptyString => []
  | String c rest =>
      if Ascii.eqb c "010" then cur :: lines_from EmptyString rest
      else lines_from (cur ++ String c EmptyString) rest
  end.

Definition lines_of (text : string) : list string := lines_from EmptyString text.

Fixpoint has_lf (s : string) : bool :=
  match s with
  | EmptyString => false
  | String c s' => Ascii.eqb c "010" || has_lf s'
  end.

(** The per-colour output lines: the lines that the per-colour prints put
    on stdout. *)
Definition colour_lines (data : pyval F) : list string :=
  lines_of (written (decl_texts data)).

(** NormalizedOklch in the words of the specification: [[L/100, C, H]]. *)
Definition normalized_oklch (v : pyval F) : option (pyval F) :=
  match v with
  | PList (L :: C :: H :: _) =>
      match truediv rt L 100 with
      | Ok q => Some (PList [PFloat q; C; H])
      | Raise _ => None
      end
  | _ => None
  end.

(** LinearRGB in the words of the specification: interpret the coordinates
    as OKLCH, convert into linear sRGB, fit into its gamut with the
    library's default method, read the three components. *)
Definition linear_rgb (coords : pyval F) : result (F * F * F) :=
  match Color lib "oklch" coords with
  | Raise e => Raise e
  | Ok oklch =>
      match convert lib oklch "srgb-linear" with
      | Raise e => Raise e
      | Ok linear =>
          match fit lib linear "srgb-linear" with
          | Raise e => Raise e
          | Ok fitted =>
              match coord lib fitted 0, coord lib fitted 1, coord lib fitted 2 with
              | Ok r, Ok g, Ok b => Ok (r, g, b)
              | Raise e, _, _ => Raise e
              | Ok _, Raise e, _ => Raise e
              | Ok _, Ok _, Raise e => Raise e
              end
          end
      end
  end.

(** The declaration of the specification for identifier [id] and
    components [r], [g], [b]. *)
Definition declaration (id : string) (rgb : F * F * F) : string :=
  ("pub const " ++ id ++ ": Self = Self::new("
     ++ float_repr rt (fst (fst rgb)) ++ ", " ++ float_repr rt (snd (fst rgb)) ++ ", "
     ++ float_repr rt (snd rgb) ++ ");")%string.

(** [text] is the declaration that the specification asks for pair [p]. *)
Definition spec_decl (p : color_pair) (text : string) : Prop :=
  exists coords rgb,
    normalized_oklch (entry p) = Some coords /\
    linear_rgb coords = Ok rgb /\
    text = declaration (str_upper rt (family p ++ "_" ++ brightness p)) rgb.

(** A text of the shape of the aggregate line. *)
Definition aggregate_form (text : string) : Prop :=
  exists count listing,
    text = ("pub const ALL: [Self; " ++ count ++ "] = [" ++ listing ++ "];")%string.



(** Name [n] of [color_names] and printed text [text] belong together:
    [text] declares the constant that [n] refers to. *)
Definition declares (n text : string) : Prop :=
  exists id rgb, n = ("Self::" ++ id)%string /\ text = declaration id rgb.

(** Between two iterations: every name has its declaration, and its [repr]
    is a text that stdout encodes. *)
Definition in_step (st : state F) : Prop :=
  Forall2 declares (color_names st) (stdout st) /\
  Forall (fun n => encodes rt (str_repr rt n) = true) (color_names st).

(** After an exception: the texts printed belong to the first names, and
    at most one name, the last one, has no text. *)
Definition interrupted (st : state F) : Prop :=
  exists done extra,
    color_names st = done ++ extra /\ (List.length extra <= 1)%nat /\
    Forall2 declares done (stdout st).

End Vocabulary.

End Table.

(** ** A runtime to compute with

    Exact rationals stand in for floats, ASCII for Unicode, an ASCII codec
    for stdout, and a converter that knows the grey axis only (where linear
    sRGB is the cube of the lightness) stands in for coloraide.  The
    theorems below hold for every runtime and library; this one serves to
    evaluate the script on concrete tables. *)

Module Demo.
Import Py Gen.

Definition q_truediv (x : Q) (n : Z) : result Q :=
  if n =? 0 then Raise ZeroDivisionError else Ok (Qred (Qdiv x (inject_Z n))).

Fixpoint frac_digits (fuel : nat) (r d : Z) : string :=
  match fuel with
  | O => ""
  | S k =>
      if r =? 0 then ""
      else (int_str (10 * r / d) ++ frac_digits k (10 * r mod d) d)%string
  end.

Definition q_repr (q : Q) : string :=
  let n := Z.abs (Qnum q) in
  let d := Zpos (Qden q) in
  let sign := if Qnum q <? 0 then "-" else "" in
  let whole := int_str (n / d) in
  let frac := if n mod d =? 0 then "0" else frac_digits 17 (n mod d) d in
  (sign ++ whole ++ "." ++ frac)%string.

Definition upper_ascii (c : ascii) : ascii :=
  let n := nat_of_ascii c in
  if ((97 <=? n) && (n <=? 122))%nat then ascii_of_nat (n - 32) else c.

Fixpoint ascii_upper (s : string) : string :=
  match s with
  | EmptyString => EmptyString
  | String c s' => String (upper_ascii c) (ascii_upper s')
  end.

Fixpoint contains (c : ascii) (s : string) : bool :=
  match s with
  | EmptyString => false
  | String c' s' => Ascii.eqb c c' || contains c s'
  end.

Definition hex_digit (n : nat) : ascii :=
  if (n <? 10)%nat then ascii_of_nat (48 + n) else ascii_of_nat (87 + n).

Definition escape (quote c : ascii) : string :=
  let n := nat_of_ascii c in
  if Ascii.eqb c quote || Ascii.eqb c "\"%char then String "\"%char (String c EmptyString)
  else if (n =? 9)%nat then "\t"
  else if (n =? 10)%nat then "\n"
  else if (n =? 13)%nat then "\r"
  else if ((n <? 32) || (n =? 127))%nat then
    String "\"%char (String "x"%char
      (String (hex_digit (n / 16)) (String (hex_digit (n mod 16)) EmptyString)))
  else String c EmptyString.

Fixpoint escape_all (quote : ascii) (s : string) : string :=
  match s with
  | EmptyString => EmptyString
  | String c s' => (escape quote c ++ escape_all quote s')%string
  end.

(** [repr] of an ASCII string: single quotes, unless the text has a single
    quote and no double quote. *)
Definition ascii_repr (s : string) : string :=
  let quote := if contains "'"%char s && negb (contains "034"%char s)
               then "034"%char else "'"%char in
  String quote (escape_all quote s ++ String quote EmptyString).

(** The escapes of [ascii_repr] are ASCII. *)
Definition escape_encodes (codec : ascii -> bool) (quote c : ascii) :
  is_ascii quote = true -> is_ascii c || codec c = true ->
  encodes_with codec (escape quote c) = true.
Proof.
  intros Hq Hc. unfold escape.
  destruct (Ascii.eqb c quote || Ascii.eqb c "\"%char).
  - unfold encodes_with. simpl. now rewrite Hc.
  - clear Hq. unfold encodes_with.
    destruct c as [[|] [|] [|] [|] [|] [|] [|] [|]];
      vm_compute; vm_compute in Hc; try reflexivity; now rewrite Hc.
Defined.

Definition escape_all_encodes (codec : ascii -> bool) (quote : ascii) (s : string) :
  is_ascii quote = true -> encodes_with codec s = true ->
  encodes_with codec (escape_all quote s) = true.
Proof.
  intros Hq. unfold encodes_with. induction s as [|c s IH]; simpl; auto.
  intros H. apply andb_true_iff in H as [Hc Hs].
  assert (forall a b, list_ascii_of_string (a ++ b)
                      = (list_ascii_of_string a ++ list_ascii_of_string b)%list) as Happ.
  { induction a as [|x a IHa]; simpl; intros b; [reflexivity|now rewrite IHa]. }
  rewrite Happ, forallb_app. apply andb_true_iff. split; [|now apply IH].
  now apply escape_encodes.
Defined.

Definition ascii_repr_encodes (codec : ascii -> bool) (s : string) :
  encodes_with codec s = true -> encodes_with codec (ascii_repr s) = true.
Proof.
  intros H. unfold ascii_repr.
  set (quote := if contains "'"%char s && negb (contains "034"%char s)
                then "034"%char else "'"%char).
  assert (is_ascii quote = true) as Hq by (unfold quote; now destruct (_ && _)).
  assert (forall a b, list_ascii_of_string (a ++ b)
                      = (list_ascii_of_string a ++ list_ascii_of_string b)%list) as Happ.
  { induction a as [|x a IHa]; simpl; intros b; [reflexivity|now rewrite IHa]. }
  unfold encodes_with. simpl. rewrite Hq. simpl.
  rewrite Happ, forallb_app. apply andb_true_iff. split.
  - now apply escape_all_encodes.
  - simpl. now rewrite Hq.
Defined.

(** Stdout takes ASCII and nothing else. *)
Definition rt : Runtime Q := {|
  int_truediv := fun a n => q_truediv (inject_Z a) n;
  float_truediv := q_truediv;
  float_repr := q_repr;
  str_upper := ascii_upper;
  str_repr := ascii_repr;
  stdout_encodes := fun _ => false;
  str_repr_encodes := ascii_repr_encodes (fun _ => false)
|}.

Definition number (v : pyval Q) : result Q :=
  match v with
  | PInt z => Ok (inject_Z z)
  | PBool b => Ok (inject_Z (Z.b2z b))
  | PFloat q => Ok q
  | _ => Raise LibraryError
  end.

Definition grey_Color (space : string) (coords : pyval Q) : result (Q * Q * Q) :=
  match coords with
  | PList [l; c; h] =>
      match number l, number c, number h with
      | Ok l', Ok c', Ok h' => Ok (l', c', h')
      | _, _, _ => Raise LibraryError
      end
  | _ => Raise LibraryError
  end.

Definition grey_convert (lch : Q * Q * Q) (space : string) : result (Q * Q * Q) :=
  let '(l, c, _) := lch in
  if Qeq_bool c 0 then let y := Qred (l * l * l) in Ok (y, y, y)
  else Raise LibraryError.

Definition clip (x : Q) : Q :=
  if Qle_bool x 0 then 0%Q else if Qle_bool 1 x then 1%Q else x.

Definition grey_fit (rgb : Q * Q * Q) (space : string) : result (Q * Q * Q) :=
  let '(r, g, b) := rgb in Ok (clip r, clip g, clip b).

Definition grey_coord (rgb : Q * Q * Q) (i : Z) : result Q :=
  let '(r, g, b) := rgb in
  if i =? 0 then Ok r else if i =? 1 then Ok g else if i =? 2 then Ok b
  else Raise IndexError.

Definition lib : ColorLib Q := {|
  color := (Q * Q * Q)%type;
  Color := grey_Color;
  convert := grey_convert;
  fit := grey_fit;
  coord := grey_coord
|}.

(** [{"gray": {"50": [50, 0, 0], "100": [100, 0, 0]}, "ink": {"900": [0, 0, 0]}}] *)
Definition palette_families : list (string * pyval Q) :=
  [("gray", PDict [("50", PList [PInt 50; PInt 0; PInt 0]);
                   ("100", PList [PInt 100; PInt 0; PInt 0])]);
   ("ink", PDict [("900", PList [PInt 0; PInt 0; PInt 0])])].

Definition palette : pyval Q := PDict palette_families.


(** [{"gray": {"50": [50, 0, 0, 7]}}]: an entry of four numbers *)
Definition four_components : pyval Q :=
  PDict [("gray", PDict [("50", PList [PInt 50; PInt 0; PInt 0; PInt 7])])].

(** [{"gray": {"50": [50, 0, 0], "100": [100, 0], "200": [20, 0, 0]}}]:
    the second entry is too short *)
Definition broken : pyval Q :=
  PDict [("gray", PDict [("50", PList [PInt 50; PInt 0; PInt 0]);
                         ("100", PList [PInt 100; PInt 0]);
                         ("200", PList [PInt 20; PInt 0; PInt 0])])].

(** [{"gray": {}, "ink": {}}] *)
Definition hollow : list (string * pyval Q) :=
  [("gray", PDict []); ("ink", PDict [])].

(** The same library without the clip of [fit]. *)
Definition unclipped : ColorLib Q := {|
  color := (Q * Q * Q)%type;
  Color := grey_Color;
  convert := grey_convert;
  fit := fun rgb _ => Ok rgb;
  coord := grey_coord
|}.

(** The families of [broken]. *)
Definition broken_families : list (string * pyval Q) :=
  [("gray", PDict [("50", PList [PInt 50; PInt 0; PInt 0]);
                   ("100", PList [PInt 100; PInt 0]);
                   ("200", PList [PInt 20; PInt 0; PInt 0])])].

(** [{"a\nb": {"1": [100, 0, 0]}}]: a family name with a line feed *)
Definition two_line_key : pyval Q :=
  PDict [(String "a" (String "010" "b"), PDict [("1", PList [PInt 100; PInt 0; PInt 0])])].

(** [{"caf\u00e9": {"1": [100, 0, 0], "2": [1]}}]: a family name that an
    ASCII stdout cannot encode *)
Definition accented_key : pyval Q :=
  PDict [(String "c" (String "a" (String "f" (String "233" EmptyString))),
          PDict [("1", PList [PInt 100; PInt 0; PInt 0]); ("2", PList [PInt 1])])].

End Demo.

(** * Properties *)

Module Facts.
Import Py Gen Table.

Section Correctness.

Context {F : Type} (rt : Runtime F) (lib : ColorLib F).

#[local] Abbreviation entry_step := (entry_step rt lib).
#[local] Abbreviation pair_line := (pair_line rt lib).
#[local] Abbreviation pair_name := (pair_name rt).
#[local] Abbreviation pair_call := (pair_call rt lib).
#[local] Abbreviation pair_ok := (pair_ok rt lib).
#[local] Abbreviation body := (body rt lib).
#[local] Abbreviation family_loop := (family_loop rt lib).

(** *** States *)

Lemma emit_nil (st : state F) : emit st [] [] [] = st.
Proof. destruct st; unfold emit; simpl; now rewrite !app_nil_r. Qed.

Lemma emit_emit (st : state F) l1 n1 c1 l2 n2 c2 :
  emit (emit st l1 n1 c1) l2 n2 c2 = emit st (l1 ++ l2) (n1 ++ n2) (c1 ++ c2).
Proof. unfold emit; simpl; now rewrite !app_assoc. Qed.

(** *** Dict lookups *)

Lemma distinct_cons k ks :
  distinct (k :: ks) = true -> ~ In k ks /\ distinct ks = true.
Proof.
  simpl; intros H; apply andb_true_iff in H as [Hk Hd]; split; auto.
  intros Hin. apply negb_true_iff in Hk.
  assert (existsb (String.eqb k) ks = true) as E.
  { apply existsb_exists; exists k; split; auto. apply String.eqb_refl. }
  congruence.
Qed.

Lemma distinct_NoDup ks : distinct ks = true -> NoDup ks.
Proof.
  induction ks as [|k ks IH]; intros H; [constructor|].
  apply distinct_cons in H as [Hk Hd]. constructor; auto.
Qed.

Lemma NoDup_distinct ks : NoDup ks -> distinct ks = true.
Proof.
  induction 1 as [|k ks Hk _ IH]; simpl; auto.
  rewrite IH, andb_true_r. apply negb_true_iff.
  destruct (existsb (String.eqb k) ks) eqn:E; auto.
  apply existsb_exists in E as (k' & Hin & Hk'). apply String.eqb_eq in Hk'.
  subst; contradiction.
Qed.

Lemma lookup_in {A} (d : list (string * A)) k v :
  distinct (map fst d) = true -> In (k, v) d -> lookup k d = Some v.
Proof.
  unfold lookup. induction d as [|[k' v'] d IH]; simpl; intros Hd Hin; [easy|].
  apply distinct_cons in Hd as [Hk Hd].
  destruct Hin as [E|Hin].
  - inversion E; subst. now rewrite String.eqb_refl.
  - destruct (String.eqb k k') eqn:E.
    + apply String.eqb_eq in E; subst. exfalso; apply Hk.
      now apply (in_map fst) in Hin.
    + auto.
Qed.

Lemma lookup_some_in {A} (d : list (string * A)) k v :
  lookup k d = Some v -> In (k, v) d.
Proof.
  unfold lookup. induction d as [|[k' v'] d IH]; simpl; [easy|].
  destruct (String.eqb k k') eqn:E.
  - apply String.eqb_eq in E; subst. intros [= ->]; auto.
  - auto.
Qed.

(** *** Texts *)

Lemma str_app_assoc (a b c : string) : ((a ++ b) ++ c = a ++ b ++ c)%string.
Proof. induction a as [|x a IH]; simpl; [reflexivity|now rewrite IH]. Qed.

Lemma str_app_nil_r (a : string) : (a ++ "" = a)%string.
Proof. induction a as [|x a IH]; simpl; [reflexivity|now rewrite IH]. Qed.

Lemma chars_app (a b : string) :
  list_ascii_of_string (a ++ b) = list_ascii_of_string a ++ list_ascii_of_string b.
Proof. induction a as [|x a IH]; simpl; [reflexivity|now rewrite IH]. Qed.

Lemma encodes_app (a b : string) :
  encodes rt (a ++ b) = encodes rt a && encodes rt b.
Proof. unfold encodes, encodes_with. now rewrite chars_app, forallb_app. Qed.

Lemma encodes_cons (c : ascii) (a : string) :
  encodes rt (String c a) = (is_ascii c || stdout_encodes rt c) && encodes rt a.
Proof. reflexivity. Qed.

Lemma encodes_join (sep : string) (l : list string) :
  encodes rt sep = true ->
  forallb (encodes rt) l = true -> encodes rt (join sep l) = true.
Proof.
  intros Hsep. unfold join. induction l as [|x l IH]; simpl; [reflexivity|].
  intros H. apply andb_true_iff in H as [Hx Hl]. destruct l as [|y l]; [exact Hx|].
  rewrite !encodes_app, Hx, Hsep. simpl. now apply IH.
Qed.

Lemma uint_encodes (d : Decimal.uint) : encodes rt (NilEmpty.string_of_uint d) = true.
Proof. induction d; simpl; auto. Qed.

Lemma int_str_encodes (z : Z) : encodes rt (int_str z) = true.
Proof.
  unfold int_str, NilZero.string_of_int, NilZero.string_of_uint.
  destruct (Z.to_int z) as [d|d]; destruct d; try reflexivity;
    try (apply (uint_encodes (Decimal.D0 _)) || apply (uint_encodes (Decimal.D1 _))
         || apply (uint_encodes (Decimal.D2 _)) || apply (uint_encodes (Decimal.D3 _))
         || apply (uint_encodes (Decimal.D4 _)) || apply (uint_encodes (Decimal.D5 _))
         || apply (uint_encodes (Decimal.D6 _)) || apply (uint_encodes (Decimal.D7 _))
         || apply (uint_encodes (Decimal.D8 _)) || apply (uint_encodes (Decimal.D9 _)));
    change (encodes rt (String "-" (NilEmpty.string_of_uint ?d)) = true)
      with (true && encodes rt (NilEmpty.string_of_uint d) = true);
    simpl; apply uint_encodes.
Qed.

(** The aggregate text is encoded as soon as the [repr] of every name is. *)
Lemma all_line_encodes (names : list string) :
  Forall (fun n => encodes rt (str_repr rt n) = true) names ->
  encodes rt (all_line rt names) = true.
Proof.
  intros H. unfold all_line. simpl py_str.
  rewrite !encodes_app, int_str_encodes, map_map. simpl.
  rewrite encodes_cons, encodes_app, encodes_join; auto.
  apply forallb_forall. rewrite Forall_forall in H.
  intros x Hx. apply in_map_iff in Hx as (n & <- & Hn). auto.
Qed.

(** A name whose declaration went through has a [repr] that stdout
    encodes: its characters, and ASCII. *)
Lemma declared_name_encodes (id : string) rgb :
  encodes rt (decl_line rt id rgb) = true ->
  encodes rt (str_repr rt ("Self::" ++ id)) = true.
Proof.
  destruct rgb as [[r g] b]. unfold decl_line. rewrite !encodes_app.
  intros H. apply andb_true_iff in H as [_ H]. apply andb_true_iff in H as [H _].
  apply str_repr_encodes. fold (encodes rt ("Self::" ++ id)).
  now rewrite encodes_app.
Qed.

(** *** One pair *)

Lemma body_resolved d f e b v st :
  lookup f d = Some (PDict e) -> lookup b e = Some v ->
  body (PDict d) f (PStr b) st = entry_step (f, b, v) st.
Proof.
  intros Hf Hb. unfold Gen.body, Table.entry_step, bind, lift; simpl.
  rewrite Hf; simpl. now rewrite Hb.
Qed.

Lemma entry_step_ok p coords rgb st :
  convert_entry rt lib (entry p) = Ok (coords, rgb) ->
  encodes rt (pair_line p) = true ->
  entry_step p st = (emit st [pair_line p] [pair_name p] [pair_call p], Ok tt).
Proof.
  unfold Table.pair_line, Table.pair_call. intros H; rewrite H. intros He.
  unfold convert_entry in H.
  destruct (oklch_normalized rt (entry p)) as [c|] eqn:Hn; [|discriminate].
  destruct (to_rgb lib c) as [x|] eqn:Hr; [|discriminate].
  inversion H; subst.
  unfold Table.entry_step, bind, lift, append_name, log_call, print; simpl.
  rewrite Hn, Hr. simpl. now rewrite He.
Qed.

Lemma entry_step_raise p st :
  pair_ok p = false ->
  exists st' e, entry_step p st = (st', Raise e) /\ stdout st' = stdout st.
Proof.
  unfold Table.pair_ok, entry_ok, Table.pair_line, convert_entry.
  unfold Table.entry_step, bind, lift, append_name, log_call, print; simpl.
  destruct (oklch_normalized rt (entry p)) as [c|e]; simpl.
  - destruct (to_rgb lib c) as [x|e]; simpl.
    + destruct (encodes rt (decl_line rt (identifier rt p) x)); [discriminate|].
      intros _; eauto.
    + intros _; eauto.
  - intros _; eauto.
Qed.

Lemma pair_ok_convert p :
  pair_ok p = true ->
  exists coords rgb,
    convert_entry rt lib (entry p) = Ok (coords, rgb) /\ encodes rt (pair_line p) = true.
Proof.
  unfold Table.pair_ok, entry_ok. intros H. apply andb_true_iff in H as [Hc He].
  destruct (convert_entry rt lib (entry p)) as [[c x]|]; [eauto|discriminate].
Qed.

Lemma pair_name_encodes p :
  pair_ok p = true -> encodes rt (str_repr rt (pair_name p)) = true.
Proof.
  intros Hp. destruct (pair_ok_convert p Hp) as (c & x & Hc & He).
  unfold Table.pair_line in He. rewrite Hc in He.
  now apply declared_name_encodes in He.
Qed.

Lemma aggregate_encodes ps :
  forallb pair_ok ps = true -> encodes rt (all_line rt (map pair_name ps)) = true.
Proof.
  intros H. apply all_line_encodes. apply Forall_forall. intros n Hn.
  apply in_map_iff in Hn as (p & <- & Hp). apply pair_name_encodes.
  rewrite forallb_forall in H. auto.
Qed.

(** *** A run of pairs *)

Lemma pairs_loop_ok ps : forall st,
  forallb pair_ok ps = true ->
  for_each ps entry_step st
  = (emit st (map pair_line ps) (map pair_name ps) (map pair_call ps), Ok tt).
Proof.
  induction ps as [|p ps IH]; intros st H; simpl.
  - unfold ret. now rewrite emit_nil.
  - apply andb_true_iff in H as [Hp Hps].
    destruct (pair_ok_convert p Hp) as (c & x & Hc & He).
    unfold bind. rewrite (entry_step_ok p c x st Hc He), (IH _ Hps), emit_emit.
    reflexivity.
Qed.

Lemma pairs_loop_raise ps : forall st,
  forallb pair_ok ps = false ->
  exists done bad rest st' e,
    ps = done ++ bad :: rest /\
    forallb pair_ok done = true /\ pair_ok bad = false /\
    for_each ps entry_step st = (st', Raise e) /\
    stdout st' = stdout st ++ map pair_line done.
Proof.
  induction ps as [|p ps IH]; intros st H; simpl in *; [discriminate|].
  destruct (pair_ok p) eqn:Hp; simpl in H.
  - destruct (pair_ok_convert p Hp) as (c & x & Hc & He).
    destruct (IH (emit st [pair_line p] [pair_name p] [pair_call p]) H)
      as (done & bad & rest & st' & e & -> & Hd & Hb & Hrun & Hout).
    exists (p :: done), bad, rest, st', e. simpl. rewrite Hp, Hd.
    unfold bind. rewrite (entry_step_ok p c x st Hc He), Hrun, Hout. simpl.
    rewrite <- app_assoc. auto.
  - destruct (entry_step_raise p st Hp) as (st' & e & Hrun & Hout).
    exists [], p, ps, st', e. unfold bind. rewrite Hrun, Hout. simpl.
    rewrite app_nil_r. auto.
Qed.

(** *** One family *)

Lemma inner_loop_dict d f e :
  lookup f d = Some (PDict e) -> distinct (map fst e) = true ->
  forall e' st, incl e' e ->
    for_each (map (fun kv => PStr (fst kv)) e') (fun b => body (PDict d) f b) st
    = for_each (map (fun bv => (f, fst bv, snd bv)) e') entry_step st.
Proof.
  intros Hf He. induction e' as [|[b v] e' IH]; intros st Hincl; simpl; auto.
  unfold bind. rewrite (body_resolved d f e b v st Hf).
  - destruct (entry_step (f, b, v) st) as [st' [u|x]]; auto.
    apply IH. intros y Hy; apply Hincl; now right.
  - apply lookup_in; auto. apply Hincl; now left.
Qed.

Lemma family_loop_dict d f e st :
  distinct (map fst d) = true -> In (f, PDict e) d -> distinct (map fst e) = true ->
  family_loop (PDict d) f st = for_each (family_pairs (f, PDict e)) entry_step st.
Proof.
  intros Hd Hin He. pose proof (lookup_in d f _ Hd Hin) as Hf.
  unfold Gen.family_loop, bind, lift; simpl. rewrite Hf; simpl.
  apply (inner_loop_dict d f e Hf He). apply incl_refl.
Qed.

Lemma seq_index_in {A} (l : list A) i v : seq_index l i = Some v -> In v l.
Proof.
  unfold seq_index.
  destruct ((0 <=? _) && _); [|discriminate]. apply nth_error_In.
Qed.

Lemma normalized_not_index v c :
  oklch_normalized rt v = Ok c -> as_index v = None.
Proof. destruct v; simpl; auto; discriminate. Qed.

Lemma list_body_ok d f l x st st' u :
  lookup f d = Some (PList l) ->
  body (PDict d) f x st = (st', Ok u) ->
  exists i v c, as_index x = Some i /\ seq_index l i = Some v /\
                oklch_normalized rt v = Ok c.
Proof.
  intros Hf. unfold Gen.body, bind, lift, append_name; simpl. rewrite Hf; simpl.
  destruct (as_index x) as [i|] eqn:Hi; [|discriminate].
  destruct (seq_index l i) as [v|] eqn:Hv; [|discriminate].
  destruct (oklch_normalized rt v) as [c|] eqn:Hc; [|discriminate].
  intros _. now exists i, v, c.
Qed.

Lemma list_loop_ok d f l :
  lookup f d = Some (PList l) ->
  forall items st st' u,
    for_each items (fun b => body (PDict d) f b) st = (st', Ok u) ->
    Forall (fun x => as_index x <> None) items /\
    (items <> [] -> exists v, In v l /\ as_index v = None).
Proof.
  intros Hf. induction items as [|x items IH]; intros st st' u H.
  - split; [constructor|congruence].
  - simpl in H. unfold bind in H.
    destruct (body (PDict d) f x st) as [st1 [u1|e1]] eqn:Hb; [|discriminate].
    destruct (list_body_ok _ _ _ _ _ _ _ Hf Hb) as (i & v & c & Hi & Hv & Hc).
    destruct (IH _ _ _ H) as [Hall _]. split.
    + constructor; auto. congruence.
    + intros _. exists v. split; [eapply seq_index_in; eauto|].
      eapply normalized_not_index; eauto.
Qed.

(** A non-empty array in the place of a family always raises: to be an
    index an element must be an [int], and then the element it selects has
    no subscript. *)
Lemma list_family_raises d f x l st :
  lookup f d = Some (PList (x :: l)) ->
  exists st' e, family_loop (PDict d) f st = (st', Raise e).
Proof.
  intros Hf. unfold Gen.family_loop, bind, lift. simpl getitem. rewrite Hf. simpl py_iter. cbv iota beta.
  destruct (for_each (x :: l) (fun b => body (PDict d) f b) st) as [st' [u|e]] eqn:H;
    [|eauto].
  destruct (list_loop_ok d f _ Hf _ _ _ _ H) as [Hall Hex].
  destruct Hex as (v & Hin & Hv); [discriminate|].
  rewrite Forall_forall in Hall. now apply Hall in Hin.
Qed.

Lemma str_family_raises d f c s st :
  lookup f d = Some (PStr (String c s)) ->
  exists st' e, family_loop (PDict d) f st = (st', Raise e).
Proof.
  intros Hf. unfold Gen.family_loop, Gen.body, bind, lift, append_name; simpl.
  rewrite Hf; simpl. unfold bind; simpl. eauto.
Qed.

Lemma family_loop_accepts d fam st :
  distinct (map fst d) = true -> In fam d ->
  match snd fam with PDict e => distinct (map fst e) = true | _ => True end ->
  family_ok rt lib fam = true ->
  family_loop (PDict d) (fst fam) st
  = (emit st (map pair_line (family_pairs fam)) (map pair_name (family_pairs fam))
       (map pair_call (family_pairs fam)), Ok tt).
Proof.
  destruct fam as [f inner]. intros Hd Hin He Hok.
  pose proof (lookup_in d f _ Hd Hin) as Hf.
  unfold family_ok in Hok. simpl in *.
  destruct inner as [| | | |s|l|e]; try discriminate.
  - destruct s; [|discriminate].
    unfold Gen.family_loop, bind, lift; simpl. rewrite Hf; simpl.
    unfold family_pairs; simpl. unfold ret. now rewrite emit_nil.
  - destruct l; [|discriminate].
    unfold Gen.family_loop, bind, lift; simpl. rewrite Hf; simpl.
    unfold family_pairs; simpl. unfold ret. now rewrite emit_nil.
  - rewrite (family_loop_dict d f e st Hd Hin He). now apply pairs_loop_ok.
Qed.

Lemma family_loop_rejects d fam st :
  distinct (map fst d) = true -> In fam d ->
  match snd fam with PDict e => distinct (map fst e) = true | _ => True end ->
  family_ok rt lib fam = false ->
  exists st' e, family_loop (PDict d) (fst fam) st = (st', Raise e).
Proof.
  destruct fam as [f inner]. intros Hd Hin He Hok.
  pose proof (lookup_in d f _ Hd Hin) as Hf.
  unfold family_ok in Hok. simpl in *.
  destruct inner as [| | | |s|l|e].
  1-4: unfold Gen.family_loop, bind, lift; simpl; rewrite Hf; simpl; eauto.
  - destruct s; [discriminate|]. eapply str_family_raises; eauto.
  - destruct l; [discriminate|]. eapply list_family_raises; eauto.
  - rewrite (family_loop_dict d f e st Hd Hin He).
    destruct (pairs_loop_raise _ st Hok) as (_ & _ & _ & st' & x & _ & _ & _ & H & _).
    eauto.
Qed.

(** *** The whole table *)

Lemma keys_distinct_dict (d : list (string * pyval F)) :
  keys_distinct (PDict d) = true ->
  distinct (map fst d) = true /\
  forall fam, In fam d ->
    match snd fam with PDict e => distinct (map fst e) = true | _ => True end.
Proof.
  simpl. intros H. apply andb_true_iff in H as [Hd Hall]. split; auto.
  intros fam Hin. rewrite forallb_forall in Hall. specialize (Hall fam Hin).
  destruct (snd fam); auto.
Qed.

Lemma outer_loop_accepts (d : list (string * pyval F)) :
  keys_distinct (PDict d) = true ->
  forall d' st, incl d' d -> forallb (family_ok rt lib) d' = true ->
    for_each (map fst d') (family_loop (PDict d)) st
    = (emit st (map pair_line (flat_map family_pairs d'))
         (map pair_name (flat_map family_pairs d'))
         (map pair_call (flat_map family_pairs d')), Ok tt).
Proof.
  intros Hk. destruct (keys_distinct_dict d Hk) as [Hd Hin].
  induction d' as [|fam d' IH]; intros st Hincl Hok; simpl.
  - unfold ret. now rewrite emit_nil.
  - apply andb_true_iff in Hok as [Hfam Hok].
    assert (In fam d) as Hfd by (apply Hincl; now left).
    unfold bind. rewrite (family_loop_accepts d fam st Hd Hfd (Hin fam Hfd) Hfam).
    rewrite IH; auto.
    + now rewrite emit_emit, !map_app.
    + intros y Hy; apply Hincl; now right.
Qed.

Lemma outer_loop_rejects (d : list (string * pyval F)) :
  keys_distinct (PDict d) = true ->
  forall d' st, incl d' d -> forallb (family_ok rt lib) d' = false ->
    exists st' e, for_each (map fst d') (family_loop (PDict d)) st = (st', Raise e).
Proof.
  intros Hk. destruct (keys_distinct_dict d Hk) as [Hd Hin].
  induction d' as [|fam d' IH]; intros st Hincl Hok; simpl in *; [discriminate|].
  assert (In fam d) as Hfd by (apply Hincl; now left).
  unfold bind. destruct (family_ok rt lib fam) eqn:Hfam; simpl in Hok.
  - rewrite (family_loop_accepts d fam st Hd Hfd (Hin fam Hfd) Hfam).
    apply IH; auto. intros y Hy; apply Hincl; now right.
  - destruct (family_loop_rejects d fam st Hd Hfd (Hin fam Hfd) Hfam) as (st' & e & ->).
    eauto.
Qed.

Lemma for_each_app {A} (body : A -> M F unit) l1 l2 st :
  for_each (l1 ++ l2) body st = (for_each l1 body ;; for_each l2 body) st.
Proof.
  revert st. induction l1 as [|x l1 IH]; intros st; simpl; auto.
  unfold bind in *. destruct (body x st) as [st' [u|e]]; auto.
Qed.

(** On an object of objects the two nested loops are one loop over the
    pairs. *)
Lemma outer_loop_shaped (d : list (string * pyval F)) :
  keys_distinct (PDict d) = true ->
  forall d' st, incl d' d ->
    forallb (fun fam => match snd fam with PDict _ => true | _ => false end) d' = true ->
    for_each (map fst d') (family_loop (PDict d)) st
    = for_each (flat_map family_pairs d') entry_step st.
Proof.
  intros Hk. destruct (keys_distinct_dict d Hk) as [Hd Hin].
  induction d' as [|[f inner] d' IH]; intros st Hincl Hsh; simpl in *; auto.
  apply andb_true_iff in Hsh as [Hf Hsh]. destruct inner as [| | | | | |e]; try discriminate.
  assert (In (f, PDict e) d) as Hfd by (apply Hincl; now left).
  rewrite for_each_app. unfold bind.
  rewrite (family_loop_dict d f e st Hd Hfd (Hin _ Hfd)).
  destruct (for_each (family_pairs (f, PDict e)) entry_step st) as [st' [u|x]]; auto.
  apply IH; auto. intros y Hy; apply Hincl; now right.
Qed.

Lemma shaped_family_ok (d : list (string * pyval F)) :
  forallb (fun fam => match snd fam with PDict _ => true | _ => false end) d = true ->
  forallb (family_ok rt lib) d = forallb pair_ok (flat_map (@family_pairs F) d).
Proof.
  induction d as [|[f inner] d IH]; simpl; auto. intros H.
  apply andb_true_iff in H as [Hf H]. rewrite forallb_app, IH; auto.
  destruct inner; try discriminate. reflexivity.
Qed.

(** *** The run *)

Lemma accepted_pairs_ok (data : pyval F) :
  accepted rt lib data = true -> forallb pair_ok (pairs data) = true.
Proof.
  destruct data as [| | | | | |d]; try discriminate. simpl.
  induction d as [|[f inner] d IH]; simpl; auto. intros H.
  apply andb_true_iff in H as [Hf H]. rewrite forallb_app, IH, andb_true_r; auto.
  unfold family_ok in Hf. unfold family_pairs in *. simpl in *.
  destruct inner; auto.
Qed.


Lemma run_accepted (data : pyval F) :
  keys_distinct data = true -> accepted rt lib data = true ->
  run rt lib (Json data) = (final_state rt lib data, Ok tt).
Proof.
  intros Hk Hacc. destruct data as [| | | | | |d]; try discriminate.
  unfold run, script, bind, lift, get_names, print; simpl.
  rewrite (outer_loop_accepts d Hk d init (incl_refl d) Hacc). simpl.
  pose proof (aggregate_encodes _ (accepted_pairs_ok (PDict d) Hacc)) as He.
  simpl in He. now rewrite He.
Qed.

Lemma run_rejected (data : pyval F) :
  keys_distinct data = true -> accepted rt lib data = false ->
  fails rt lib (Json data).
Proof.
  intros Hk Hacc. unfold fails, run, script, bind, lift; simpl.
  destruct data as [| | | | | |d]; simpl; eauto.
  destruct (outer_loop_rejects d Hk d init (incl_refl d) Hacc) as (st' & e & ->).
  simpl; eauto.
Qed.

Lemma run_rejected_shaped (data : pyval F) :
  keys_distinct data = true -> table_shaped data = true ->
  accepted rt lib data = false ->
  exists done bad rest,
    pairs data = done ++ bad :: rest /\
    forallb pair_ok done = true /\ pair_ok bad = false /\
    output rt lib (Json data) = map pair_line done.
Proof.
  intros Hk Hsh Hacc. destruct data as [| | | | | |d]; try discriminate.
  simpl in Hsh, Hacc. rewrite (shaped_family_ok d Hsh) in Hacc.
  destruct (pairs_loop_raise _ init Hacc)
    as (done & bad & rest & st' & e & Hp & Hd & Hb & Hrun & Hout).
  exists done, bad, rest. repeat split; auto.
  unfold output, run, script, bind, lift; simpl.
  rewrite (outer_loop_shaped d Hk d init (incl_refl d) Hsh), Hrun. simpl.
  now rewrite Hout.
Qed.

Lemma completes_or_fails f : completes rt lib f \/ fails rt lib f.
Proof.
  unfold completes, fails. destruct (snd (run rt lib f)) as [[]|e]; eauto.
Qed.

Lemma completes_not_fails f : completes rt lib f -> ~ fails rt lib f.
Proof. unfold completes, fails. intros H [e He]. congruence. Qed.

Lemma completes_accepted (data : pyval F) :
  keys_distinct data = true ->
  (completes rt lib (Json data) <-> accepted rt lib data = true).
Proof.
  intros Hk. split.
  - intros Hc. destruct (accepted rt lib data) eqn:Hacc; auto.
    exfalso. apply (completes_not_fails _ Hc). now apply run_rejected.
  - intros Hacc. unfold completes. now rewrite run_accepted.
Qed.

Lemma output_accepted (data : pyval F) :
  keys_distinct data = true -> completes rt lib (Json data) ->
  output rt lib (Json data)
  = map pair_line (pairs data) ++ [all_line rt (map pair_name (pairs data))]
  /\ decl_texts rt lib data = map pair_line (pairs data)
  /\ forallb pair_ok (pairs data) = true.
Proof.
  intros Hk Hc. apply completes_accepted in Hc; auto.
  unfold decl_texts, output. rewrite (run_accepted data Hk Hc). simpl.
  rewrite removelast_last. auto using accepted_pairs_ok.
Qed.


Lemma seq_index_nth {A} (l : list A) i :
  0 <= i -> seq_index l i = nth_error l (Z.to_nat i).
Proof.
  intros Hi. unfold seq_index.
  destruct (i <? 0) eqn:E; [apply Z.ltb_lt in E; lia|].
  destruct (0 <=? i) eqn:E0; [|apply Z.leb_gt in E0; lia]. simpl.
  destruct (i <? Z.of_nat (List.length l)) eqn:E1; auto.
  apply Z.ltb_ge in E1. symmetry. apply nth_error_None. lia.
Qed.

Lemma normalized_inv v coords :
  oklch_normalized rt v = Ok coords ->
  exists L C H rest q,
    v = PList (L :: C :: H :: rest) /\ truediv rt L 100 = Ok q /\
    coords = PList [PFloat q; C; H].
Proof.
  unfold oklch_normalized. destruct v as [| | | |s|l|d]; simpl; try discriminate.
  - destruct (seq_index (list_ascii_of_string s) 0); simpl; discriminate.
  - rewrite !seq_index_nth by lia.
    destruct l as [|L [|C [|H rest]]]; simpl; try discriminate.
    + destruct (truediv rt L 100); discriminate.
    + destruct (truediv rt L 100); discriminate.
    + destruct (truediv rt L 100) as [q|] eqn:Hq; [|discriminate].
      intros [= <-]. now exists L, C, H, rest, q.
Qed.

Lemma pair_call_is_normalized p : pair_ok p = true -> is_normalized rt p (pair_call p).
Proof.
  intros Hp. destruct (pair_ok_convert p Hp) as (c & x & Hc & _).
  unfold Table.pair_call. rewrite Hc. unfold convert_entry in Hc.
  destruct (oklch_normalized rt (entry p)) as [c'|] eqn:Hn; [|discriminate].
  destruct (to_rgb lib c'); [|discriminate]. inversion Hc; subst.
  now apply normalized_inv.
Qed.

Lemma Forall2_map_ok {B} (R : color_pair -> B -> Prop) (g : color_pair -> B) ps :
  (forall p, pair_ok p = true -> R p (g p)) ->
  forallb pair_ok ps = true -> Forall2 R ps (map g ps).
Proof.
  intros HR. induction ps as [|p ps IH]; simpl; intros H; [constructor|].
  apply andb_true_iff in H as [Hp H]. constructor; auto.
Qed.

(** *** The code against the words of the specification *)

Lemma to_rgb_linear_rgb coords : to_rgb lib coords = linear_rgb lib coords.
Proof.
  unfold to_rgb, linear_rgb.
  destruct (Color lib "oklch" coords) as [c|]; [|reflexivity].
  destruct (convert lib c "srgb-linear") as [c1|]; [|reflexivity].
  destruct (fit lib c1 "srgb-linear") as [c2|]; [|reflexivity].
  destruct (coord lib c2 0), (coord lib c2 1), (coord lib c2 2); reflexivity.
Qed.

Lemma normalized_shape L C H tail q :
  truediv rt L 100 = Ok q ->
  oklch_normalized rt (PList (L :: C :: H :: tail)) = Ok (PList [PFloat q; C; H]).
Proof.
  intros Hq. unfold oklch_normalized. simpl. rewrite !seq_index_nth by lia. simpl.
  now rewrite Hq.
Qed.

Lemma normalized_spec v coords :
  oklch_normalized rt v = Ok coords -> normalized_oklch rt v = Some coords.
Proof.
  intros H. destruct (normalized_inv v coords H) as (L & C & Hh & rest & q & -> & Hq & ->).
  simpl. now rewrite Hq.
Qed.

Lemma decl_line_declaration id rgb : decl_line rt id rgb = declaration rt id rgb.
Proof. now destruct rgb as [[r g] b]. Qed.

Lemma pair_line_spec_decl p : pair_ok p = true -> spec_decl rt lib p (pair_line p).
Proof.
  intros Hp. destruct (pair_ok_convert p Hp) as (c & rgb & Hc & _).
  unfold Table.pair_line. rewrite Hc. unfold convert_entry in Hc.
  destruct (oklch_normalized rt (entry p)) as [c'|] eqn:Hn; [|discriminate].
  destruct (to_rgb lib c') as [x|] eqn:Hr; [|discriminate]. inversion Hc; subst.
  exists c, rgb. repeat split.
  - now apply normalized_spec.
  - now rewrite <- to_rgb_linear_rgb.
  - apply decl_line_declaration.
Qed.

(** *** Texts and lines *)

Lemma lines_from_text t : forall cur rest,
  has_lf t = false ->
  lines_from cur (t ++ String "010" rest) = (cur ++ t)%string :: lines_of rest.
Proof.
  induction t as [|c t IH]; intros cur rest H; simpl in *.
  - now rewrite str_app_nil_r.
  - apply orb_false_iff in H as [Hc Ht]. rewrite Hc, (IH _ _ Ht), str_app_assoc.
    reflexivity.
Qed.

(** Texts without a line feed are the lines of what the prints write. *)
Lemma lines_written texts :
  Forall (fun t => has_lf t = false) texts -> lines_of (written texts) = texts.
Proof.
  induction 1 as [|t texts Ht _ IH]; simpl; [reflexivity|].
  unfold lines_of at 1. now rewrite (lines_from_text t _ _ Ht), IH.
Qed.

(** *** Claims about a completed run *)


(** C3, as the script behaves: on a valid table (one on which the run
    completes) there are as many per-colour prints as (family, brightness)
    pairs, and the aggregate text, printed last, declares that same count
    as the array length.  When no per-colour text holds a line feed, the
    number of per-colour output lines is that count as well. *)
Theorem line_count_is_pair_count (data : pyval F) :
  keys_distinct data = true -> completes rt lib (Json data) ->
  List.length (decl_texts rt lib data) = List.length (pairs data)
  /\ (exists listing,
        output rt lib (Json data)
        = decl_texts rt lib data
          ++ [("pub const ALL: [Self; " ++ int_str (Z.of_nat (List.length (pairs data)))
                ++ "] = " ++ listing ++ ";")%string])
  /\ (Forall (fun t => has_lf t = false) (decl_texts rt lib data) ->
      List.length (colour_lines rt lib data) = List.length (pairs data)).
Proof.
  intros Hk Hc. destruct (output_accepted data Hk Hc) as (Hout & Hd & _).
  rewrite Hout. unfold colour_lines. rewrite Hd. repeat split.
  - now rewrite length_map.
  - unfold all_line. rewrite !length_map. eauto.
  - intros Hlf. now rewrite lines_written, length_map.
Qed.

(** *** What reaches the library *)

Lemma entry_step_grows p st st' r :
  entry_step p st = (st', r) ->
  exists texts calls,
    stdout st' = stdout st ++ texts /\ lib_calls st' = lib_calls st ++ calls.
Proof.
  unfold Table.entry_step, bind, lift, append_name, log_call, print. simpl.
  destruct (oklch_normalized rt (entry p)) as [c|]; simpl.
  - destruct (to_rgb lib c) as [x|]; simpl.
    + destruct (encodes rt (decl_line rt (identifier rt p) x)); intros [= <- <-]; simpl.
      * now exists [decl_line rt (identifier rt p) x], [c].
      * exists [], [c]. now rewrite app_nil_r.
    + intros [= <- <-]. simpl. exists [], [c]. now rewrite app_nil_r.
  - intros [= <- <-]. simpl. exists [], []. now rewrite !app_nil_r.
Qed.

Lemma pairs_loop_grows ps : forall st st' r,
  for_each ps entry_step st = (st', r) ->
  exists texts calls,
    stdout st' = stdout st ++ texts /\ lib_calls st' = lib_calls st ++ calls.
Proof.
  induction ps as [|p ps IH]; intros st st' r; simpl.
  - intros [= <- <-]. exists [], []. now rewrite !app_nil_r.
  - unfold bind. destruct (entry_step p st) as [st1 [u|e]] eqn:Hp.
    + intros H. destruct (entry_step_grows _ _ _ _ Hp) as (t1 & c1 & Ht1 & Hc1).
      destruct (IH _ _ _ H) as (t2 & c2 & Ht2 & Hc2).
      exists (t1 ++ t2), (c1 ++ c2). now rewrite Ht2, Hc2, Ht1, Hc1, !app_assoc.
    + intros [= <- <-]. now apply (entry_step_grows _ _ _ _ Hp).
Qed.

Lemma print_grows text (st st' : state F) r :
  print rt text st = (st', r) ->
  exists texts, stdout st' = stdout st ++ texts /\ lib_calls st' = lib_calls st.
Proof.
  unfold print. destruct (encodes rt text); intros [= <- <-]; simpl.
  - now exists [text].
  - exists []. now rewrite app_nil_r.
Qed.

(** What line 13 to 20 do to a pair whose entry is normalized to [coords]. *)
Lemma entry_step_normalized p st coords :
  oklch_normalized rt (entry p) = Ok coords ->
  lib_calls (fst (entry_step p st)) = lib_calls st ++ [coords] /\
  match linear_rgb lib coords with
  | Raise e =>
      snd (entry_step p st) = Raise e /\ stdout (fst (entry_step p st)) = stdout st
  | Ok rgb =>
      if encodes rt (declaration rt (identifier rt p) rgb)
      then snd (entry_step p st) = Ok tt /\
           stdout (fst (entry_step p st))
           = stdout st ++ [declaration rt (identifier rt p) rgb]
      else snd (entry_step p st) = Raise UnicodeEncodeError /\
           stdout (fst (entry_step p st)) = stdout st
  end.
Proof.
  intros Hn. rewrite <- to_rgb_linear_rgb.
  unfold Table.entry_step, bind, lift, append_name, log_call, print. simpl.
  rewrite Hn. simpl. destruct (to_rgb lib coords) as [rgb|e]; simpl; auto.
  rewrite <- decl_line_declaration.
  destruct (encodes rt (decl_line rt (identifier rt p) rgb)); simpl; auto.
Qed.

Lemma run_shaped (d : list (string * pyval F)) :
  keys_distinct (PDict d) = true -> table_shaped (PDict d) = true ->
  run rt lib (Json (PDict d))
  = match for_each (flat_map family_pairs d) entry_step init with
    | (st, Ok _) => print rt (all_line rt (color_names st)) st
    | (st, Raise e) => (st, Raise e)
    end.
Proof.
  intros Hk Hsh. unfold run, script, bind, lift, get_names. simpl.
  now rewrite (outer_loop_shaped d Hk d init (incl_refl d) Hsh).
Qed.

Lemma nth_error_middle {A} (l l' : list A) x :
  nth_error (l ++ x :: l') (List.length l) = Some x.
Proof. rewrite nth_error_app2, Nat.sub_diag by lia. reflexivity. Qed.

(** C6: the list that line 14 hands to the library for an entry
    [[L, C, H, ...]] is [[L / 100, C, H]], chroma and hue being the entry's
    own values.  For every pair that the run reaches in an object of
    objects: the call reached at that pair has these coordinates; if the
    library, asked to build, convert and fit a colour of these coordinates,
    raises, the run ends there with that exception; and if it returns
    components, the text printed for the pair is the declaration with those
    components.  This holds for every library, so what the script passes
    on is this list and no other. *)
Theorem library_receives_normalized (data : pyval F) done p rest L C H tail q :
  keys_distinct data = true -> table_shaped data = true ->
  pairs data = done ++ p :: rest ->
  forallb pair_ok done = true ->
  entry p = PList (L :: C :: H :: tail) -> truediv rt L 100 = Ok q ->
  nth_error (lib_calls (fst (run rt lib (Json data)))) (List.length done)
  = Some (PList [PFloat q; C; H])
  /\ (forall e, linear_rgb lib (PList [PFloat q; C; H]) = Raise e ->
        snd (run rt lib (Json data)) = Raise e /\
        List.length (output rt lib (Json data)) = List.length done)
  /\ (forall rgb, linear_rgb lib (PList [PFloat q; C; H]) = Ok rgb ->
        encodes rt (declaration rt (identifier rt p) rgb) = true ->
        nth_error (output rt lib (Json data)) (List.length done)
        = Some (declaration rt (identifier rt p) rgb)).
Proof.
  intros Hk Hsh Hp Hdone Hentry Hq.
  destruct data as [| | | | | |d]; try discriminate.
  unfold output. rewrite (run_shaped d Hk Hsh). simpl in Hp. rewrite Hp.
  rewrite for_each_app. unfold bind. rewrite (pairs_loop_ok done init Hdone).
  set (st0 := emit init (map pair_line done) (map pair_name done) (map pair_call done)).
  assert (List.length (stdout st0) = List.length done) as Hlen_out
    by (unfold st0; simpl; now rewrite length_map).
  assert (List.length (lib_calls st0) = List.length done) as Hlen_calls
    by (unfold st0; simpl; now rewrite length_map).
  assert (oklch_normalized rt (entry p) = Ok (PList [PFloat q; C; H])) as Hn
    by (rewrite Hentry; now apply normalized_shape).
  destruct (entry_step_normalized p st0 _ Hn) as [Hcalls Hcase].
  simpl for_each. unfold bind.
  destruct (entry_step p st0) as [st1 r1] eqn:Hstep. simpl in Hcalls, Hcase.
  destruct r1 as [u|e1].
  - (* the pair went through: the rest of the loop and the last print follow *)
    destruct (for_each rest entry_step st1) as [st2 r2] eqn:Hrest.
    destruct (pairs_loop_grows _ _ _ _ Hrest) as (t2 & c2 & Ht2 & Hc2).
    assert (exists t3, stdout (fst (match r2 with
                                    | Ok _ => print rt (all_line rt (color_names st2)) st2
                                    | Raise e => (st2, Raise e)
                                    end)) = stdout st2 ++ t3
                       /\ lib_calls (fst (match r2 with
                                          | Ok _ => print rt (all_line rt (color_names st2)) st2
                                          | Raise e => (st2, Raise e)
                                          end)) = lib_calls st2) as (t3 & Ht3 & Hc3).
    { destruct r2 as [u2|e2].
      - destruct (print rt (all_line rt (color_names st2)) st2) as [st3 r3] eqn:Hpr.
        destruct (print_grows _ _ _ _ Hpr) as (t3 & Ht3 & Hc3). now exists t3.
      - exists []. simpl. now rewrite app_nil_r. }
    split; [|split].
    + rewrite Hc3, Hc2, Hcalls, <- app_assoc, <- Hlen_calls. apply nth_error_middle.
    + intros e He. rewrite He in Hcase. destruct Hcase as [[=] _].
    + intros rgb Hrgb Henc. rewrite Hrgb, Henc in Hcase. destruct Hcase as [_ Hout].
      rewrite Ht3, Ht2, Hout, <- !app_assoc, <- Hlen_out. apply nth_error_middle.
  - (* the run ends at this pair *)
    simpl. split; [|split].
    + rewrite Hcalls, <- Hlen_calls. apply nth_error_middle.
    + intros e He. rewrite He in Hcase. destruct Hcase as [[= ->] Hout].
      split; auto. now rewrite Hout.
    + intros rgb Hrgb Henc. rewrite Hrgb, Henc in Hcase. destruct Hcase as [[=] _].
Qed.

(** *** Rearranged tables *)






Lemma keys_distinct_iff (d : list (string * pyval F)) :
  keys_distinct (PDict d) = true <->
  distinct (map fst d) = true /\ Forall inner_distinct d.
Proof.
  simpl. rewrite andb_true_iff, forallb_forall, Forall_forall.
  unfold inner_distinct. split; intros [H1 H2]; split; auto; intros fam Hin;
    specialize (H2 fam Hin); destruct (snd fam); auto.
Qed.

Lemma accepted_iff (d : list (string * pyval F)) :
  accepted rt lib (PDict d) = true <-> Forall (fun fam => family_ok rt lib fam = true) d.
Proof. simpl. now rewrite forallb_forall, Forall_forall. Qed.

Lemma decl_texts_good (d : list (string * pyval F)) :
  distinct (map fst d) = true -> Forall inner_distinct d ->
  Forall (fun fam => family_ok rt lib fam = true) d ->
  completes rt lib (Json (PDict d)) /\
  decl_texts rt lib (PDict d) = map pair_line (flat_map family_pairs d).
Proof.
  intros Hd Hi Hok.
  assert (keys_distinct (PDict d) = true) as Hk by now apply keys_distinct_iff.
  assert (completes rt lib (Json (PDict d))) as Hc
    by now apply completes_accepted, accepted_iff.
  split; auto. now destruct (output_accepted _ Hk Hc) as (_ & -> & _).
Qed.





(** *** Tables without pairs *)

Lemma lookup_all {A} (P : A -> Prop) (d : list (string * A)) k :
  Forall (fun kv => P (snd kv)) d -> In k (map fst d) ->
  exists v, lookup k d = Some v /\ P v.
Proof.
  intros Hall Hin. unfold lookup.
  destruct (find (fun kv => String.eqb k (fst kv)) d) as [kv|] eqn:E.
  - apply find_some in E as [Hkv _]. rewrite Forall_forall in Hall. eauto.
  - apply in_map_iff in Hin as (kv & <- & Hkv).
    apply (find_none _ _ E) in Hkv. now rewrite String.eqb_refl in Hkv.
Qed.

Lemma empty_families_loop (d : list (string * pyval F)) :
  Forall (fun fam => snd fam = PDict []) d ->
  forall keys st, incl keys (map fst d) ->
    for_each keys (family_loop (PDict d)) st = (st, Ok tt).
Proof.
  intros Hall. induction keys as [|k keys IH]; intros st Hincl; simpl; auto.
  destruct (lookup_all (fun v => v = PDict []) d k Hall) as (v & Hk & ->).
  { apply Hincl; now left. }
  unfold bind at 1. unfold Gen.family_loop at 1. unfold bind, lift; simpl.
  rewrite Hk; simpl. apply IH. intros y Hy; apply Hincl; now right.
Qed.

(** C10: on a table without pairs (the empty object, or every family an
    empty object) the run completes and prints the aggregate line of an
    empty array, and nothing else. *)
Theorem empty_table_prints_empty_all (d : list (string * pyval F)) :
  Forall (fun fam => snd fam = PDict []) d ->
  completes rt lib (Json (PDict d)) /\
  output rt lib (Json (PDict d)) = ["pub const ALL: [Self; 0] = [];"%string].
Proof.
  intros Hall. unfold completes, output, run, script, bind, lift, get_names, print.
  simpl. rewrite (empty_families_loop d Hall _ init (incl_refl _)). simpl. auto.
Qed.

(** *** What every run keeps *)

Lemma in_step_interrupted (st : state F) : in_step rt st -> interrupted rt st.
Proof.
  intros [H2 _]. exists (color_names st), []. rewrite app_nil_r.
  repeat split; simpl; auto.
Qed.

Lemma body_keeps_step data color_name brightness (st : state F) :
  in_step rt st ->
  match body data color_name brightness st with
  | (st', Ok _) => in_step rt st'
  | (st', Raise _) => interrupted rt st'
  end.
Proof.
  intros [H2 He].
  assert (interrupted rt
            {| stdout := stdout st;
               color_names := color_names st
                 ++ [("Self::" ++ const_name rt color_name brightness)%string];
               lib_calls := lib_calls st |}) as Hint.
  { exists (color_names st), [("Self::" ++ const_name rt color_name brightness)%string].
    simpl. auto. }
  unfold Gen.body, bind, lift, append_name, log_call, print. simpl.
  destruct (getitem data (PStr color_name)) as [fam|]; simpl; auto.
  destruct (getitem fam brightness) as [oklch|]; simpl; auto.
  destruct (oklch_normalized rt oklch) as [c|]; simpl; auto.
  assert (interrupted rt
            {| stdout := stdout st;
               color_names := color_names st
                 ++ [("Self::" ++ const_name rt color_name brightness)%string];
               lib_calls := lib_calls st ++ [c] |}) as Hint'.
  { exists (color_names st), [("Self::" ++ const_name rt color_name brightness)%string].
    simpl. auto. }
  destruct (to_rgb lib c) as [rgb|]; simpl; auto.
  destruct (encodes rt (decl_line rt (const_name rt color_name brightness) rgb)) eqn:Henc;
    simpl; auto.
  split; simpl.
  - apply Forall2_app; auto. constructor; [|constructor].
    exists (const_name rt color_name brightness), rgb.
    split; auto using decl_line_declaration.
  - apply Forall_app. split; auto. constructor; [|constructor].
    eapply declared_name_encodes; eauto.
Qed.

Lemma loop_keeps_step {A} (m : A -> M F unit) :
  (forall x st, in_step rt st ->
     match m x st with
     | (st', Ok _) => in_step rt st'
     | (st', Raise _) => interrupted rt st'
     end) ->
  forall xs st, in_step rt st ->
    match for_each xs m st with
    | (st', Ok _) => in_step rt st'
    | (st', Raise _) => interrupted rt st'
    end.
Proof.
  intros Hm. induction xs as [|x xs IH]; intros st Hst; simpl; auto.
  unfold bind. specialize (Hm x st Hst).
  destruct (m x st) as [st1 [u|e]]; [now apply IH|exact Hm].
Qed.

Lemma family_keeps_step data color_name (st : state F) :
  in_step rt st ->
  match family_loop data color_name st with
  | (st', Ok _) => in_step rt st'
  | (st', Raise _) => interrupted rt st'
  end.
Proof.
  intros Hst. unfold Gen.family_loop, bind, lift. simpl.
  destruct (getitem data (PStr color_name)) as [fam|]; [|now apply in_step_interrupted].
  destruct (py_iter fam) as [items|]; [|now apply in_step_interrupted].
  apply loop_keeps_step; auto. intros x st'. apply body_keeps_step.
Qed.

Lemma init_in_step : in_step rt (@init F).
Proof. split; constructor. Qed.

(** When the loops end without exception the aggregate print goes
    through. *)
Lemma loops_then_aggregate data keys (st : state F) u :
  for_each keys (family_loop data) init = (st, Ok u) ->
  in_step rt st /\ encodes rt (all_line rt (color_names st)) = true.
Proof.
  intros H.
  pose proof (loop_keeps_step (family_loop data) (family_keeps_step data) keys init
                init_in_step) as Hst.
  rewrite H in Hst. split; auto. apply all_line_encodes. apply Hst.
Qed.

Lemma run_keeps_step (f : file_state F) :
  match run rt lib f with
  | (st, Ok _) =>
      exists decls,
        stdout st = decls ++ [all_line rt (color_names st)] /\
        Forall2 (declares rt) (color_names st) decls
  | (st, Raise _) => interrupted rt st
  end.
Proof.
  unfold run, script, bind, lift, get_names. simpl.
  destruct (load f) as [data|]; [|apply in_step_interrupted, init_in_step].
  destruct (py_keys data) as [keys|]; [|apply in_step_interrupted, init_in_step].
  pose proof (loop_keeps_step (family_loop data) (family_keeps_step data) keys init
                init_in_step) as H.
  destruct (for_each keys (family_loop data) init) as [st [u|e]] eqn:Hloop; auto.
  destruct (loops_then_aggregate _ _ _ _ Hloop) as [_ Henc].
  unfold print. rewrite Henc. simpl. exists (stdout st). split; auto. apply H.
Qed.

Lemma failed_run_interrupted (f : file_state F) :
  fails rt lib f -> interrupted rt (fst (run rt lib f)).
Proof.
  intros [e He]. pose proof (run_keeps_step f) as H.
  destruct (run rt lib f) as [st [u|x]]; [discriminate|exact H].
Qed.

(** *** Failure *)

Lemma entry_ok_iff v :
  entry_ok rt lib v = true <->
  exists L C H rest q rgb,
    v = PList (L :: C :: H :: rest) /\ truediv rt L 100 = Ok q /\
    to_rgb lib (PList [PFloat q; C; H]) = Ok rgb.
Proof.
  unfold entry_ok, convert_entry. split.
  - destruct (oklch_normalized rt v) as [c|] eqn:Hn; [|discriminate].
    destruct (to_rgb lib c) as [rgb|] eqn:Hr; [|discriminate]. intros _.
    destruct (normalized_inv v c Hn) as (L & C & H & rest & q & -> & Hq & ->).
    now exists L, C, H, rest, q, rgb.
  - intros (L & C & H & rest & q & rgb & -> & Hq & Hr).
    now rewrite (normalized_shape _ _ _ _ _ Hq), Hr.
Qed.

Lemma pair_ok_iff p :
  pair_ok p = true <->
  exists L C H rest q rgb,
    entry p = PList (L :: C :: H :: rest) /\ truediv rt L 100 = Ok q /\
    linear_rgb lib (PList [PFloat q; C; H]) = Ok rgb /\
    encodes rt (declaration rt (identifier rt p) rgb) = true.
Proof.
  unfold Table.pair_ok, Table.pair_line. rewrite andb_true_iff, entry_ok_iff. split.
  - intros [(L & C & H & rest & q & rgb & He & Hq & Hr) Henc].
    exists L, C, H, rest, q, rgb.
    split; [exact He|]. split; [exact Hq|].
    split; [now rewrite <- to_rgb_linear_rgb|].
    unfold convert_entry in Henc.
    rewrite He, (normalized_shape _ _ _ _ _ Hq), Hr in Henc.
    now rewrite <- decl_line_declaration.
  - intros (L & C & H & rest & q & rgb & He & Hq & Hr & Henc).
    rewrite <- to_rgb_linear_rgb in Hr. split.
    + now exists L, C, H, rest, q, rgb.
    + unfold convert_entry. rewrite He, (normalized_shape _ _ _ _ _ Hq), Hr.
      now rewrite decl_line_declaration.
Qed.

Lemma fails_json (data : pyval F) :
  keys_distinct data = true ->
  (fails rt lib (Json data) <-> accepted rt lib data = false).
Proof.
  intros Hk. split.
  - intros Hf. destruct (accepted rt lib data) eqn:Hacc; auto.
    exfalso. eapply completes_not_fails; eauto. now apply completes_accepted.
  - now apply run_rejected.
Qed.

(** A table that is valid in the words of the specification is accepted as
    soon as dividing a number by 100 raises nothing, the library converts
    every triple of numbers and stdout encodes every text. *)
Lemma valid_table_completes (data : pyval F) :
  keys_distinct data = true -> spec_valid data = true ->
  (forall z, exists q, int_truediv rt z 100 = Ok q) ->
  (forall x, exists q, float_truediv rt x 100 = Ok q) ->
  (forall q c h, numeric c = true -> numeric h = true ->
     exists rgb, to_rgb lib (PList [PFloat q; c; h]) = Ok rgb) ->
  (forall s, encodes rt s = true) ->
  completes rt lib (Json data).
Proof.
  intros Hk Hv Hint Hfloat Hlib Henc. apply completes_accepted; auto.
  apply andb_true_iff in Hv as [Hsh Hnum].
  destruct data as [| | | | | |d]; try discriminate. simpl in *.
  rewrite (shaped_family_ok d Hsh). rewrite forallb_forall in *.
  intros p Hp. specialize (Hnum p Hp). unfold Table.pair_ok.
  rewrite Henc, andb_true_r. apply entry_ok_iff.
  destruct (entry p) as [| | | | |l|]; try discriminate.
  destruct l as [|L [|C [|H [|? ?]]]]; try discriminate. simpl in Hnum.
  apply andb_true_iff in Hnum as [Hnum HH]. apply andb_true_iff in Hnum as [HL HC].
  assert (exists q, truediv rt L 100 = Ok q) as [q Hq].
  { destruct L; try discriminate; simpl; auto. }
  destruct (Hlib q C H HC HH) as [rgb Hrgb].
  now exists L, C, H, [], q, rgb.
Qed.

(** A declaration ends in [);], an aggregate text in [];]. *)
Lemma suffix_clash (a b : string) : (a ++ ");" <> b ++ "];")%string.
Proof.
  revert b. induction a as [|x a IH]; intros b H.
  - destruct b as [|y [|z [|w b]]]; simpl in H; inversion H.
  - destruct b as [|y b]; simpl in H.
    + destruct a as [|x1 [|x2 a]]; simpl in H; inversion H.
    + inversion H. eapply IH; eauto.
Qed.

Lemma declaration_not_aggregate id rgb : ~ aggregate_form (declaration rt id rgb).
Proof.
  intros (count & listing & H). unfold declaration in H.
  rewrite <- !str_app_assoc in H. now apply suffix_clash in H.
Qed.

Lemma Forall2_right {A B} (R : A -> B -> Prop) (P : B -> Prop) l l' :
  (forall a b, R a b -> P b) -> Forall2 R l l' -> Forall P l'.
Proof. intros HR. induction 1; constructor; eauto. Qed.

(** C4, as the script behaves: the run fails exactly when [open] raises,
    [json.load] raises, or the value loaded is not an accepted table; a
    pair is accepted exactly when its entry is an array of at least three
    elements whose first one divides by 100, the library raises nothing
    when it builds, converts and fits the colour of the normalized triple,
    and stdout can encode the declaration; what follows the third element
    is never read.  A run that fails has printed declarations only, never
    the aggregate text: none at all when the file cannot be loaded, and on
    an object of objects exactly the declarations of the pairs that precede
    the first pair that is not accepted. *)
Theorem failure_characterised (f : file_state F) :
  (forall data, f = Json data -> keys_distinct data = true) ->
  (fails rt lib f <->
     f = Missing \/ f = Malformed \/
     exists data, f = Json data /\ accepted rt lib data = false)
  /\ (forall p, pair_ok p = true <->
        exists L C H rest q rgb,
          entry p = PList (L :: C :: H :: rest) /\ truediv rt L 100 = Ok q /\
          linear_rgb lib (PList [PFloat q; C; H]) = Ok rgb /\
          encodes rt (declaration rt (identifier rt p) rgb) = true)
  /\ (f = Missing \/ f = Malformed -> output rt lib f = [])
  /\ (fails rt lib f ->
      Forall (fun text => (exists id rgb, text = declaration rt id rgb) /\
                          ~ aggregate_form text) (output rt lib f))
  /\ (forall data, f = Json data -> table_shaped data = true -> fails rt lib f ->
        exists done bad rest,
          pairs data = done ++ bad :: rest /\
          pair_ok bad = false /\
          Forall2 (spec_decl rt lib) done (output rt lib f)).
Proof.
  intros Hk. split; [|split; [|split; [|split]]].
  - split.
    + destruct f as [| |data]; auto.
      intros Hf. right; right. exists data. split; auto. apply fails_json; auto.
    + intros [->|[->|(data & -> & Hacc)]].
      * exists OSError. reflexivity.
      * exists JSONDecodeError. reflexivity.
      * apply fails_json; auto.
  - apply pair_ok_iff.
  - intros [->| ->]; reflexivity.
  - intros Hf. destruct (failed_run_interrupted f Hf) as (done & extra & _ & _ & H2).
    unfold output. eapply Forall2_right; [|exact H2].
    intros n text (id & rgb & _ & ->). split; eauto using declaration_not_aggregate.
  - intros data -> Hsh Hf. apply fails_json in Hf; auto.
    destruct (run_rejected_shaped data (Hk _ eq_refl) Hsh Hf)
      as (done & bad & rest & Hp & Hd & Hb & ->).
    exists done, bad, rest. repeat split; auto.
    apply Forall2_map_ok; auto using pair_line_spec_decl.
Qed.

End Correctness.

(** *** The aggregate line *)

Section Aggregate.

Context {F : Type} (rt : Runtime F) (lib : ColorLib F).

(** X2: on a run that completes, the last line declares the number of pairs
    and lists, in the order of the pairs, the [repr] of [Self::<ID>] for each
    of them: the list after [=] is the [str] of a Python list of strings. *)
Lemma aggregate_line_reprs (data : pyval F) :
  keys_distinct data = true -> completes rt lib (Json data) ->
  last (output rt lib (Json data)) EmptyString
  = ("pub const ALL: [Self; " ++ int_str (Z.of_nat (List.length (pairs data))) ++ "] = "
      ++ ("[" ++ join ", " (map (fun p => str_repr rt ("Self::" ++ identifier rt p))
                              (pairs data)) ++ "]")
      ++ ";")%string.
Proof.
  intros Hk Hc. destruct (output_accepted rt lib data Hk Hc) as (-> & _ & _).
  rewrite last_last. unfold all_line. rewrite length_map. simpl. now rewrite !map_map.
Qed.

End Aggregate.

(** *** Names and texts *)

Section Invariant.

Context {F : Type} (rt : Runtime F) (lib : ColorLib F).

(** X1: whatever the file holds, names and printed texts stay in step.  When
    the run completes, the texts before the aggregate text pair up, in
    order, with the names that the aggregate text lists: text k is the
    declaration of the constant that name k refers to.  When it raises, the
    texts printed pair up with the first names, at most one name (the one
    being processed) has no text, and only declarations were printed. *)
Theorem names_and_lines_in_step (f : file_state F) :
  match run rt lib f with
  | (st, Ok _) =>
      exists decls,
        stdout st
        = decls
          ++ [("pub const ALL: [Self; "
                 ++ int_str (Z.of_nat (List.length (color_names st))) ++ "] = "
                 ++ ("[" ++ join ", " (map (str_repr rt) (color_names st)) ++ "]")
                 ++ ";")%string] /\
        Forall2 (declares rt) (color_names st) decls
  | (st, Raise _) => interrupted rt st
  end.
Proof.
  pose proof (run_keeps_step rt lib f) as H.
  destruct (run rt lib f) as [st [u|e]]; auto.
  destruct H as (decls & Hout & H2). exists decls. split; auto.
  rewrite Hout. unfold all_line. simpl. now rewrite !map_map.
Qed.

End Invariant.

(** *** Tables in parts *)

Section Parts.

Context {F : Type} (rt : Runtime F) (lib : ColorLib F).

Lemma for_each_ext {A} (m m' : A -> M F unit) xs :
  (forall x st, In x xs -> m x st = m' x st) ->
  forall st, for_each xs m st = for_each xs m' st.
Proof.
  induction xs as [|x xs IH]; intros H st; simpl; auto.
  unfold bind. rewrite (H x st) by now left.
  destruct (m' x st) as [st1 [u|e]]; auto. apply IH. intros; apply H; now right.
Qed.

(** The inner loop consults the table through [data[color_name]] only. *)
Lemma family_loop_same (data data' : pyval F) color_name st :
  getitem data (PStr color_name) = getitem data' (PStr color_name) ->
  family_loop rt lib data color_name st = family_loop rt lib data' color_name st.
Proof.
  intros E.
  assert (forall x st', body rt lib data color_name x st' = body rt lib data' color_name x st')
    as Hbody by (intros; unfold body, bind, lift; simpl; now rewrite <- E).
  unfold family_loop, bind, lift. simpl. rewrite <- E.
  destruct (getitem data (PStr color_name)) as [fam|]; auto.
  destruct (py_iter fam) as [items|]; auto.
  apply for_each_ext. intros x st' _. apply Hbody.
Qed.

Lemma outer_loop_same (data data' : pyval F) keys st :
  (forall k, In k keys -> getitem data (PStr k) = getitem data' (PStr k)) ->
  for_each keys (family_loop rt lib data) st = for_each keys (family_loop rt lib data') st.
Proof.
  intros H. apply for_each_ext. intros k st' Hk. now apply family_loop_same, H.
Qed.

Lemma lookup_app_l {A} k (d1 d2 : list (string * A)) :
  In k (map fst d1) -> lookup k (d1 ++ d2) = lookup k d1.
Proof.
  unfold lookup. induction d1 as [|[k' v] d1 IH]; simpl; [easy|].
  destruct (String.eqb k k') eqn:E; auto. intros [->|H]; auto.
  now rewrite String.eqb_refl in E.
Qed.

Lemma lookup_skip {A} k f (v : A) (d1 d2 : list (string * A)) :
  k <> f -> lookup k (d1 ++ (f, v) :: d2) = lookup k (d1 ++ d2).
Proof.
  intros Hk. unfold lookup. induction d1 as [|[k' v'] d1 IH]; simpl.
  - destruct (String.eqb k f) eqn:E; auto. apply String.eqb_eq in E. contradiction.
  - destruct (String.eqb k k'); auto.
Qed.

(** X3: the first exception ends the run.  If the run fails on a table, it
    fails in the same way, with the same output, on every table that
    continues it with more families: nothing after the failing family is
    looked at. *)
Theorem failure_stops_the_run (d1 d2 : list (string * pyval F)) :
  fails rt lib (Json (PDict d1)) ->
  run rt lib (Json (PDict (d1 ++ d2))) = run rt lib (Json (PDict d1)).
Proof.
  intros [e He]. unfold run, script, bind, lift in *. simpl in *.
  rewrite map_app, for_each_app. unfold bind.
  rewrite (outer_loop_same (PDict (d1 ++ d2)) (PDict d1)).
  - destruct (for_each (map fst d1) (family_loop rt lib (PDict d1)) init)
      as [st [u|x]] eqn:Hloop; [|reflexivity].
    destruct (loops_then_aggregate rt lib _ _ _ _ Hloop) as [_ Henc].
    unfold print in He. rewrite Henc in He. discriminate.
  - intros k Hk. simpl. now rewrite lookup_app_l.
Qed.

Lemma empty_family_loop (d : list (string * pyval F)) f v st :
  lookup f d = Some v ->
  v = PList [] \/ v = PStr EmptyString \/ v = PDict [] ->
  family_loop rt lib (PDict d) f st = (st, Ok tt).
Proof.
  intros Hf Hv. unfold family_loop, bind, lift. simpl. rewrite Hf.
  destruct Hv as [->|[->| ->]]; reflexivity.
Qed.

(** X9: a family that is an empty array, an empty string or an empty
    object is passed over: the run is the run on the table without it. *)
Theorem empty_family_is_skipped (d1 d2 : list (string * pyval F)) f v :
  keys_distinct (PDict (d1 ++ (f, v) :: d2)) = true ->
  v = PList [] \/ v = PStr EmptyString \/ v = PDict [] ->
  run rt lib (Json (PDict (d1 ++ (f, v) :: d2))) = run rt lib (Json (PDict (d1 ++ d2))).
Proof.
  intros Hk Hv. apply keys_distinct_iff in Hk as [Hd _].
  pose proof (distinct_NoDup _ Hd) as Hnd. rewrite map_app in Hnd. simpl in Hnd.
  apply NoDup_remove_2 in Hnd.
  assert (forall k, In k (map fst d1 ++ map fst d2) ->
            getitem (PDict (d1 ++ (f, v) :: d2)) (PStr k)
            = getitem (PDict (d1 ++ d2)) (PStr k)) as Hsame.
  { intros k Hin. simpl. rewrite lookup_skip; auto. intros ->. contradiction. }
  assert (lookup f (d1 ++ (f, v) :: d2) = Some v) as Hf.
  { apply lookup_in; auto. apply in_elt. }
  unfold run, script, bind, lift. simpl.
  rewrite !map_app. simpl. rewrite !for_each_app. unfold bind.
  rewrite (outer_loop_same _ (PDict (d1 ++ d2)) (map fst d1))
    by (intros k Hin; apply Hsame, in_or_app; now left).
  destruct (for_each (map fst d1) (family_loop rt lib (PDict (d1 ++ d2))) init)
    as [st [u|x]]; auto.
  simpl. unfold bind. rewrite (empty_family_loop _ f v st Hf Hv).
  rewrite (outer_loop_same _ (PDict (d1 ++ d2)) (map fst d2))
    by (intros k Hin; apply Hsame, in_or_app; now right).
  reflexivity.
Qed.

(** X4: tables concatenate.  For a table in two parts the run completes
    exactly when it completes on each part, and the per-colour lines are
    then the lines of the first part followed by the lines of the second. *)
Theorem tables_concatenate (d1 d2 : list (string * pyval F)) :
  keys_distinct (PDict (d1 ++ d2)) = true ->
  (completes rt lib (Json (PDict (d1 ++ d2)))
   <-> completes rt lib (Json (PDict d1)) /\ completes rt lib (Json (PDict d2)))
  /\ (completes rt lib (Json (PDict (d1 ++ d2))) ->
      decl_texts rt lib (PDict (d1 ++ d2))
      = decl_texts rt lib (PDict d1) ++ decl_texts rt lib (PDict d2)).
Proof.
  intros Hk. pose proof Hk as Hk0. apply keys_distinct_iff in Hk as [Hd Hi].
  apply Forall_app in Hi as [Hi1 Hi2].
  pose proof (distinct_NoDup _ Hd) as Hnd. rewrite map_app in Hnd.
  assert (distinct (map fst d1) = true) as Hd1
    by (apply NoDup_distinct; eapply NoDup_app_remove_r; eauto).
  assert (distinct (map fst d2) = true) as Hd2
    by (apply NoDup_distinct; eapply NoDup_app_remove_l; eauto).
  assert (keys_distinct (PDict d1) = true) as Hk1 by now apply keys_distinct_iff.
  assert (keys_distinct (PDict d2) = true) as Hk2 by now apply keys_distinct_iff.
  split.
  - rewrite !completes_accepted, !accepted_iff, Forall_app by auto. tauto.
  - intros Hc. apply completes_accepted, accepted_iff in Hc; auto.
    destruct (decl_texts_good rt lib (d1 ++ d2)) as [_ ->]; auto.
    + apply Forall_app; auto.
    + apply Forall_app in Hc as [Hc1 Hc2].
      destruct (decl_texts_good rt lib d1) as [_ ->]; auto.
      destruct (decl_texts_good rt lib d2) as [_ ->]; auto.
      now rewrite flat_map_app, map_app.
Qed.

(** X8: a number, a boolean, [null], a non-empty string or a non-empty
    array in the place of a family makes the run fail, whatever the library
    does. *)
Theorem non_object_family_fails (d : list (string * pyval F)) f v :
  keys_distinct (PDict d) = true -> In (f, v) d ->
  match v with
  | PDict _ | PList [] | PStr EmptyString => False
  | _ => True
  end ->
  fails rt lib (Json (PDict d)).
Proof.
  intros Hk Hin Hv. apply run_rejected; auto. simpl.
  destruct (forallb (family_ok rt lib) d) eqn:E; auto.
  rewrite forallb_forall in E. specialize (E _ Hin). unfold family_ok in E. simpl in E.
  destruct v as [| | | |[|c s]|[|x l]|e]; try discriminate; contradiction.
Qed.

End Parts.

(** *** Which exception *)

Section Errors.

Context {F : Type} (rt : Runtime F) (lib : ColorLib F).

Lemma normalized_spec_inv (v coords : pyval F) :
  normalized_oklch rt v = Some coords -> oklch_normalized rt v = Ok coords.
Proof.
  destruct v as [| | | | |[|L [|C [|H tail]]]|]; simpl; try discriminate.
  destruct (truediv rt L 100) as [q|] eqn:Hq; [|discriminate].
  intros [= <-]. now apply normalized_shape.
Qed.

(** What ends the run at a pair: line 13, the library, or [print]. *)
Lemma entry_step_error p e (st : state F) :
  oklch_normalized rt (entry p) = Raise e
  \/ (exists coords,
        normalized_oklch rt (entry p) = Some coords /\ linear_rgb lib coords = Raise e)
  \/ (exists coords rgb,
        normalized_oklch rt (entry p) = Some coords /\ linear_rgb lib coords = Ok rgb /\
        encodes rt (declaration rt (identifier rt p) rgb) = false /\
        e = UnicodeEncodeError) ->
  exists st', entry_step rt lib p st = (st', Raise e) /\ stdout st' = stdout st.
Proof.
  intros [Hn|[(c & Hn & Hr)|(c & rgb & Hn & Hr & Henc & ->)]].
  - unfold entry_step, bind, lift, append_name. simpl. rewrite Hn. eauto.
  - apply normalized_spec_inv in Hn.
    destruct (entry_step_normalized rt lib p st c Hn) as [_ H]. rewrite Hr in H.
    destruct (entry_step rt lib p st) as [st' r]. simpl in H. destruct H as [-> H]. eauto.
  - apply normalized_spec_inv in Hn.
    destruct (entry_step_normalized rt lib p st c Hn) as [_ H]. rewrite Hr, Henc in H.
    destruct (entry_step rt lib p st) as [st' r]. simpl in H. destruct H as [-> H]. eauto.
Qed.

(** X5: on an object of objects the run raises the exception of the first
    pair that does not go through, after the declarations of the pairs
    before it and of no other: the exception of line 13 when the entry has
    no normalized triple, the exception of the library when it raises on
    that triple, [UnicodeEncodeError] when stdout cannot encode the
    declaration. *)
Theorem first_error_is_reported (data : pyval F) done bad rest e :
  keys_distinct data = true -> table_shaped data = true ->
  pairs data = done ++ bad :: rest ->
  forallb (pair_ok rt lib) done = true ->
  oklch_normalized rt (entry bad) = Raise e
  \/ (exists coords,
        normalized_oklch rt (entry bad) = Some coords /\ linear_rgb lib coords = Raise e)
  \/ (exists coords rgb,
        normalized_oklch rt (entry bad) = Some coords /\ linear_rgb lib coords = Ok rgb /\
        encodes rt (declaration rt (identifier rt bad) rgb) = false /\
        e = UnicodeEncodeError) ->
  snd (run rt lib (Json data)) = Raise e /\
  Forall2 (spec_decl rt lib) done (output rt lib (Json data)).
Proof.
  intros Hk Hsh Hp Hdone Hbad. destruct data as [| | | | | |d]; try discriminate.
  unfold output. rewrite (run_shaped rt lib d Hk Hsh). simpl in Hp. rewrite Hp.
  rewrite for_each_app. unfold bind. rewrite (pairs_loop_ok rt lib done init Hdone).
  simpl. unfold bind.
  destruct (entry_step_error bad e
              (emit init (map (pair_line rt lib) done) (map (pair_name rt) done)
                 (map (pair_call rt lib) done)) Hbad) as (st' & -> & Hout).
  simpl. split; auto. rewrite Hout. simpl.
  apply (Forall2_map_ok rt lib); auto using pair_line_spec_decl.
Qed.

(** X6: the exceptions of line 13.  A number, a boolean or [null] has no
    subscript and a non-empty string has one that cannot be divided:
    [TypeError]; an object has no key [0]: [KeyError]; an empty array or
    string has no first element: [IndexError]; an array whose first
    element cannot be divided raises what the division raises, [TypeError]
    when that element is no number; an array of one or two elements whose
    first one divides has no third element: [IndexError]. *)
Theorem normalization_errors :
  (forall v : pyval F,
     match v with PNone | PBool _ | PInt _ | PFloat _ => True | _ => False end ->
     oklch_normalized rt v = Raise TypeError)
  /\ (forall d, oklch_normalized rt (PDict d) = Raise KeyError)
  /\ oklch_normalized rt (PList []) = Raise IndexError
  /\ oklch_normalized rt (PStr EmptyString) = Raise IndexError
  /\ (forall c s, oklch_normalized rt (PStr (String c s)) = Raise TypeError)
  /\ (forall x l e, truediv rt x 100 = Raise e ->
        oklch_normalized rt (PList (x :: l)) = Raise e)
  /\ (forall x l,
        match x with PInt _ | PBool _ | PFloat _ => False | _ => True end ->
        oklch_normalized rt (PList (x :: l)) = Raise TypeError)
  /\ (forall x l q, truediv rt x 100 = Ok q -> (List.length l < 2)%nat ->
        oklch_normalized rt (PList (x :: l)) = Raise IndexError).
Proof.
  split. { intros v Hv. destruct v; try contradiction; reflexivity. }
  split. { reflexivity. }
  split. { reflexivity. }
  split. { reflexivity. }
  split.
  { intros c s. unfold oklch_normalized. simpl. rewrite ?seq_index_nth by lia.
    reflexivity. }
  split.
  { intros x l e He. unfold oklch_normalized. simpl. rewrite ?seq_index_nth by lia.
    simpl. now rewrite He. }
  split.
  { intros x l Hx. unfold oklch_normalized. simpl. rewrite ?seq_index_nth by lia.
    simpl. destruct x; try contradiction; reflexivity. }
  intros x l q Hq Hl. unfold oklch_normalized. simpl.
  rewrite ?seq_index_nth by lia. simpl. rewrite Hq.
  destruct l as [|y [|z l]]; simpl in *; try reflexivity. lia.
Qed.

End Errors.

(** *** What the run asks of the library *)

Section Agreement.

Context {F : Type} (rt : Runtime F) (lib1 lib2 : ColorLib F).

Lemma entry_step_agree p (st : state F) :
  (forall coords, oklch_normalized rt (entry p) = Ok coords ->
     to_rgb lib1 coords = to_rgb lib2 coords) ->
  entry_step rt lib1 p st = entry_step rt lib2 p st.
Proof.
  intros H. unfold entry_step, bind, lift, append_name, log_call. simpl.
  destruct (oklch_normalized rt (entry p)) as [c|]; auto. simpl.
  now rewrite (H c eq_refl).
Qed.

(** X7: on an object of objects the run depends on the library only
    through what it returns for the normalized triples of the entries: two
    libraries that agree on those give the same output, the same names and
    the same exception, if any. *)
Theorem run_depends_on_entries_only (data : pyval F) :
  keys_distinct data = true -> table_shaped data = true ->
  (forall p coords, In p (pairs data) ->
     oklch_normalized rt (entry p) = Ok coords ->
     to_rgb lib1 coords = to_rgb lib2 coords) ->
  run rt lib1 (Json data) = run rt lib2 (Json data).
Proof.
  intros Hk Hsh Hagree. destruct data as [| | | | | |d]; try discriminate.
  simpl in Hsh, Hagree. unfold run, script, bind, lift. simpl.
  rewrite !(outer_loop_shaped rt _ d Hk d init (incl_refl d) Hsh).
  rewrite (for_each_ext (entry_step rt lib1) (entry_step rt lib2)); auto.
  intros p st Hp. apply entry_step_agree. intros c. now apply Hagree.
Qed.

End Agreement.


(** ** The script on concrete tables *)

Section Concrete.

Import Demo.

Example palette_output :
  run rt lib (Json palette)
  = ({| stdout :=
          ["pub const GRAY_50: Self = Self::new(0.125, 0.125, 0.125);";
           "pub const GRAY_100: Self = Self::new(1.0, 1.0, 1.0);";
           "pub const INK_900: Self = Self::new(0.0, 0.0, 0.0);";
           "pub const ALL: [Self; 3] = ['Self::GRAY_50', 'Self::GRAY_100', 'Self::INK_900'];"
          ]%string;
        color_names := ["Self::GRAY_50"; "Self::GRAY_100"; "Self::INK_900"]%string;
        lib_calls := [PList [PFloat (1 # 2); PInt 0; PInt 0];
                      PList [PFloat 1%Q; PInt 0; PInt 0];
                      PList [PFloat 0%Q; PInt 0; PInt 0]] |}, Ok tt).
Proof. reflexivity. Qed.

Example broken_output :
  run rt lib (Json broken)
  = ({| stdout := ["pub const GRAY_50: Self = Self::new(0.125, 0.125, 0.125);"%string];
        color_names := ["Self::GRAY_50"; "Self::GRAY_100"]%string;
        lib_calls := [PList [PFloat (1 # 2); PInt 0; PInt 0]] |}, Raise IndexError).
Proof. reflexivity. Qed.

(** An array where a family should be: the first element selects the
    second, which converts; the second is no index. *)
Example array_family_output :
  run rt lib (Json (PDict [("a"%string, PList [PInt 1; PList [PInt 50; PInt 0; PInt 0]])]))
  = ({| stdout := ["pub const A_1: Self = Self::new(0.125, 0.125, 0.125);"%string];
        color_names := ["Self::A_1"; "Self::A_[50, 0, 0]"]%string;
        lib_calls := [PList [PFloat (1 # 2); PInt 0; PInt 0]] |}, Raise TypeError).
Proof. reflexivity. Qed.

(** A family name with a line feed: one print, two lines of output. *)
Example two_line_key_output :
  completes rt lib (Json two_line_key) /\
  List.length (decl_texts rt lib two_line_key) = 1%nat /\
  colour_lines rt lib two_line_key
  = ["pub const A"; "B_1: Self = Self::new(1.0, 1.0, 1.0);"]%string.
Proof. repeat split. Qed.

(** A family name that stdout cannot encode: line 20 raises at the first
    pair, before anything is printed. *)
Example accented_key_output :
  snd (run rt lib (Json accented_key)) = Raise UnicodeEncodeError /\
  output rt lib (Json accented_key) = [].
Proof. split; reflexivity. Qed.

(** C2: the aggregate line comes last, declares the count and keeps the
    order, but it prints each name as Python's [repr] of a string, between
    quotes: on [palette] it is not the line of bare [Self::<ID>] tokens that
    the specification describes. *)
Theorem aggregate_line_quotes_identifiers :
  last (output rt lib (Json palette)) EmptyString
  = "pub const ALL: [Self; 3] = ['Self::GRAY_50', 'Self::GRAY_100', 'Self::INK_900'];"%string
  /\ spec_all_line ["GRAY_50"; "GRAY_100"; "INK_900"]%string
     = "pub const ALL: [Self; 3] = [Self::GRAY_50, Self::GRAY_100, Self::INK_900];"%string
  /\ last (output rt lib (Json palette)) EmptyString
     <> spec_all_line ["GRAY_50"; "GRAY_100"; "INK_900"]%string.
Proof. repeat split. vm_compute. discriminate. Qed.


(** C3 as stated does not hold: a valid table of one pair with two
    per-colour output lines. *)
Lemma line_count_refuted :
  spec_valid two_line_key = true /\ keys_distinct two_line_key = true /\
  completes rt lib (Json two_line_key) /\
  List.length (colour_lines rt lib two_line_key) <> List.length (pairs two_line_key).
Proof.
  split; [reflexivity|]. split; [reflexivity|]. split; [reflexivity|].
  vm_compute. discriminate.
Qed.

(** A top-level array is valid JSON and holds no entry at all, and the run
    fails on it, whatever the runtime and the library. *)
Lemma toplevel_array_fails {F : Type} (rt' : Runtime F) (lib' : ColorLib F) :
  fails rt' lib' (Json (PList [])) /\ ~ spec_failure (Json (PList (F := F) [])).
Proof.
  split.
  - exists AttributeError. reflexivity.
  - intros [H|[H|(data & p & H & Hin & _)]]; try discriminate.
    inversion H; subst. destruct Hin.
Qed.

(** An entry of four numbers is not a triple, and the run completes on it:
    what follows the third element is never read. *)
Lemma longer_entry_completes :
  spec_failure (Json four_components) /\ completes rt lib (Json four_components).
Proof.
  split; [|reflexivity].
  right; right. exists four_components, ("gray", "50", PList [PInt 50; PInt 0; PInt 0; PInt 7])%string.
  repeat split. now left.
Qed.

(** C4 as stated does not hold: failure is not equivalent to the three
    conditions of the specification. *)
Lemma failure_condition_refuted :
  ~ (forall f : file_state Q, fails rt lib f <-> spec_failure f).
Proof.
  intros H. destruct longer_entry_completes as [Hs Hc].
  apply H in Hs. exact (completes_not_fails rt lib _ Hc Hs).
Qed.

(** *** The hypotheses of the theorems, met *)


Lemma line_count_is_pair_count_witness :
  keys_distinct palette = true /\ completes rt lib (Json palette) /\
  Forall (fun t => has_lf t = false) (decl_texts rt lib palette) /\
  List.length (colour_lines rt lib palette) = 3%nat.
Proof.
  assert (Forall (fun t => has_lf t = false) (decl_texts rt lib palette)) as Hlf
    by (repeat constructor).
  split; [reflexivity|]. split; [reflexivity|]. split; [exact Hlf|].
  apply (line_count_is_pair_count rt lib palette eq_refl eq_refl). exact Hlf.
Defined.

Lemma library_receives_normalized_witness :
  keys_distinct palette = true /\ table_shaped palette = true /\
  truediv rt (PInt 100) 100 = Ok 1%Q /\
  nth_error (lib_calls (fst (run rt lib (Json palette)))) 1
  = Some (PList [PFloat 1%Q; PInt 0; PInt 0]).
Proof.
  split; [reflexivity|]. split; [reflexivity|]. split; [reflexivity|].
  apply (library_receives_normalized rt lib palette
           [("gray", "50", PList [PInt 50; PInt 0; PInt 0])]%string
           ("gray", "100", PList [PInt 100; PInt 0; PInt 0])%string
           [("ink", "900", PList [PInt 0; PInt 0; PInt 0])]%string
           (PInt 100) (PInt 0) (PInt 0) [] 1%Q); reflexivity.
Defined.


Lemma empty_table_prints_empty_all_witness :
  Forall (fun fam => snd fam = PDict []) hollow /\
  output rt lib (Json (PDict hollow)) = ["pub const ALL: [Self; 0] = [];"%string].
Proof.
  assert (Forall (fun fam : string * pyval Q => snd fam = PDict []) hollow) as H
    by (repeat constructor).
  split; [exact H|]. apply (empty_table_prints_empty_all rt lib hollow H).
Defined.

Lemma failure_characterised_witness :
  (forall data, Json broken = Json data -> keys_distinct data = true) /\
  (fails rt lib (Json broken) <->
     Json broken = Missing \/ Json broken = Malformed \/
     exists data, Json broken = Json data /\ accepted rt lib data = false).
Proof.
  assert (forall data, Json broken = Json data -> keys_distinct data = true) as H.
  { intros data E. inversion E. reflexivity. }
  split; [exact H|]. apply (failure_characterised rt lib (Json broken) H).
Defined.

End Concrete.

Section ConcreteParts.

Import Demo.

Lemma aggregate_line_reprs_witness :
  keys_distinct palette = true /\ completes rt lib (Json palette) /\
  last (output rt lib (Json palette)) EmptyString
  = "pub const ALL: [Self; 3] = ['Self::GRAY_50', 'Self::GRAY_100', 'Self::INK_900'];"%string.
Proof.
  split; [reflexivity|]. split; [reflexivity|].
  rewrite (aggregate_line_reprs rt lib palette eq_refl eq_refl). reflexivity.
Defined.

Lemma failure_stops_the_run_witness :
  fails rt lib (Json (PDict broken_families)) /\
  run rt lib (Json (PDict (broken_families ++ palette_families)))
  = run rt lib (Json (PDict broken_families)).
Proof.
  assert (fails rt lib (Json (PDict broken_families))) as H
    by (exists IndexError; reflexivity).
  split; [exact H|]. apply (failure_stops_the_run rt lib _ _ H).
Defined.

Lemma empty_family_is_skipped_witness :
  keys_distinct
    (PDict (firstn 1 palette_families ++ ("void"%string, PList []) :: skipn 1 palette_families))
  = true /\
  run rt lib
    (Json (PDict (firstn 1 palette_families ++ ("void"%string, PList [])
                    :: skipn 1 palette_families)))
  = run rt lib (Json (PDict (firstn 1 palette_families ++ skipn 1 palette_families))).
Proof.
  split; [reflexivity|].
  apply (empty_family_is_skipped rt lib (firstn 1 palette_families)
           (skipn 1 palette_families) "void"%string (PList []) eq_refl).
  now left.
Defined.

Lemma tables_concatenate_witness :
  keys_distinct (PDict (firstn 1 palette_families ++ skipn 1 palette_families)) = true /\
  (completes rt lib (Json (PDict (firstn 1 palette_families ++ skipn 1 palette_families)))
   <-> completes rt lib (Json (PDict (firstn 1 palette_families))) /\
       completes rt lib (Json (PDict (skipn 1 palette_families)))).
Proof.
  split; [reflexivity|].
  apply (tables_concatenate rt lib (firstn 1 palette_families) (skipn 1 palette_families)
           eq_refl).
Defined.

Lemma non_object_family_fails_witness :
  keys_distinct (PDict [("gray"%string, PInt (F := Q) 5)]) = true /\
  fails rt lib (Json (PDict [("gray"%string, PInt 5)])).
Proof.
  split; [reflexivity|].
  apply (non_object_family_fails rt lib [("gray"%string, PInt 5)] "gray"%string (PInt 5)
           eq_refl); [now left|exact I].
Defined.

Lemma first_error_is_reported_witness :
  keys_distinct broken = true /\ table_shaped broken = true /\
  oklch_normalized rt (PList [PInt 100; PInt 0]) = Raise IndexError /\
  snd (run rt lib (Json broken)) = Raise IndexError.
Proof.
  split; [reflexivity|]. split; [reflexivity|]. split; [reflexivity|].
  apply (first_error_is_reported rt lib broken
           [("gray", "50", PList [PInt 50; PInt 0; PInt 0])]%string
           ("gray", "100", PList [PInt 100; PInt 0])%string
           [("gray", "200", PList [PInt 20; PInt 0; PInt 0])]%string
           IndexError); try reflexivity.
  left. reflexivity.
Defined.

Lemma normalization_errors_witness :
  truediv rt (PInt 100) 100 = Ok 1%Q /\ (List.length [PInt (F := Q) 0] < 2)%nat /\
  oklch_normalized rt (PList [PInt 100; PInt 0]) = Raise IndexError.
Proof.
  split; [reflexivity|]. split; [simpl; lia|].
  apply (normalization_errors rt) with (q := 1%Q); [reflexivity|simpl; lia].
Defined.

Lemma run_depends_on_entries_only_witness :
  keys_distinct palette = true /\ table_shaped palette = true /\
  run rt lib (Json palette) = run rt unclipped (Json palette).
Proof.
  split; [reflexivity|]. split; [reflexivity|].
  apply (run_depends_on_entries_only rt lib unclipped palette); try reflexivity.
  intros p coords Hin. simpl in Hin.
  destruct Hin as [<-|[<-|[<-|[]]]]; intros H; vm_compute in H; inversion H; reflexivity.
Defined.

End ConcreteParts.

End Facts.
